(** * Row selectors of a Frame ([c/expr/i_node.cc]) and the column
      implementation contract ([src/core/column/column_impl.h])

    A shallow embedding of the selector nodes ([allrows_in], [onerow_in],
    [slice_in], [expr_in], [frame_in], [multislice_in]), of the factory
    [_make], and of the [ColumnImpl] base class, followed by the properties
    proved about them. *)

From stdpp Require Import gmap strings list.
From Stdlib Require Import ZArith Lia Ascii Sorting.Sorted.

Local Open Scope string_scope.
Local Open Scope Z_scope.

(** ** Machine integers

    [int64_t] values are kept as mathematical integers: signed overflow is
    undefined in C++, so the arithmetic of the source is transcribed exactly.
    The conversions [static_cast<size_t>], [static_cast<int64_t>] and
    [static_cast<int32_t>] are defined in C++ and wrap around; they are
    written out here. *)
Module Int.

Definition int64_min : Z := - 2 ^ 63.
Definition int64_max : Z := 2 ^ 63 - 1.

Definition to_size_t (z : Z) : Z := z mod 2 ^ 64.
Definition to_int64 (z : Z) : Z := (z + 2 ^ 63) mod 2 ^ 64 - 2 ^ 63.
Definition to_int32 (z : Z) : Z := (z + 2 ^ 31) mod 2 ^ 32 - 2 ^ 31.

(** C++ integer division truncates toward zero. *)
Definition div (a b : Z) : Z := Z.quot a b.

(** The values an [int64_t] holds.  A theorem about an expression of the
    source on [int64_t] asks that its operands and its intermediate results
    fit. *)
Definition fits (z : Z) : Prop := int64_min <= z <= int64_max.

End Int.

(** ** Storage types ([SType], [LType]) *)

Inductive SType :=
| ST_VOID | ST_BOOL | ST_INT8 | ST_INT16 | ST_INT32 | ST_INT64
| ST_FLOAT32 | ST_FLOAT64 | ST_STR32 | ST_STR64 | ST_OBJ.

Inductive LType :=
| LT_MU | LT_BOOL | LT_INT | LT_REAL | LT_STRING | LT_OBJECT.

(** Modelled from the spec: [info(st).ltype()], the logical category of a
    storage type (the type tables are declared elsewhere in the
    repository): the four integer widths are the storage types of logical
    type INT. *)
Definition ltype (st : SType) : LType :=
  match st with
  | ST_VOID => LT_MU
  | ST_BOOL => LT_BOOL
  | ST_INT8 | ST_INT16 | ST_INT32 | ST_INT64 => LT_INT
  | ST_FLOAT32 | ST_FLOAT64 => LT_REAL
  | ST_STR32 | ST_STR64 => LT_STRING
  | ST_OBJ => LT_OBJECT
  end.

Definition SType_eqb (a b : SType) : bool :=
  match a, b with
  | ST_VOID, ST_VOID | ST_BOOL, ST_BOOL | ST_INT8, ST_INT8
  | ST_INT16, ST_INT16 | ST_INT32, ST_INT32 | ST_INT64, ST_INT64
  | ST_FLOAT32, ST_FLOAT32 | ST_FLOAT64, ST_FLOAT64
  | ST_STR32, ST_STR32 | ST_STR64, ST_STR64 | ST_OBJ, ST_OBJ => true
  | _, _ => false
  end.

Definition LType_eqb (a b : LType) : bool :=
  match a, b with
  | LT_MU, LT_MU | LT_BOOL, LT_BOOL | LT_INT, LT_INT | LT_REAL, LT_REAL
  | LT_STRING, LT_STRING | LT_OBJECT, LT_OBJECT => true
  | _, _ => false
  end.

(** ** Columns and frames as the selector nodes see them

    [i_node.cc] reads a column through [stype()], [nrows], [min_int64()],
    [max_int64()] and hands it to the [RowIndex] constructor.  A column is
    its storage type and its stored values; a boolean column stores 1 for
    true and 0 for false. *)
Record Column := mkColumn {
  col_stype : SType;
  col_values : list Z;
}.

Definition col_nrows (c : Column) : Z := Z.of_nat (length (col_values c)).

(** Modelled from the spec: [Column::min_int64] (the statistics are computed
    elsewhere in the repository): "its minimum value".  Over a column
    without rows it is the neutral element of the running minimum. *)
Definition min_int64 (c : Column) : Z :=
  fold_right Z.min Int.int64_max (col_values c).

(** Modelled from the spec: [Column::max_int64]: "its maximum value".  Over
    a column without rows it is the neutral element of the running
    maximum. *)
Definition max_int64 (c : Column) : Z :=
  fold_right Z.max Int.int64_min (col_values c).

Record DataTable := mkDataTable {
  dt_columns : list Column;
}.

Definition dt_ncols (dt : DataTable) : Z := Z.of_nat (length (dt_columns dt)).

Definition void_column : Column := mkColumn ST_VOID [].

(** [dt->columns[0]] *)
Definition column0 (dt : DataTable) : Column := nth 0 (dt_columns dt) void_column.

(** ** Row indices *)

(** An [arr32_t] buffer: the size it was allocated with, and the cells
    written through [ind[j++] = ...], in the order of [j]. *)
Record arr32_t := mkArr32 {
  arr_size : Z;
  arr_cells : list Z;
}.

Inductive RowIndex :=
| RowIndex_slice (start count step : Z)
| RowIndex_array (indices : arr32_t).

(** The marker of a missing row inside an array row index. *)
Definition RowIndex_NA : Z := -1.

(** The positions of the cells equal to 1, counted from [from]. *)
Fixpoint true_positions (from : Z) (mask : list Z) : list Z :=
  match mask with
  | [] => []
  | b :: rest =>
      if b =? 1 then from :: true_positions (from + 1) rest
      else true_positions (from + 1) rest
  end.

(** Modelled from the spec: the constructor of [RowIndex] from a column
    (defined elsewhere in the repository): it "converts the column directly
    into an ARRAY-shaped RowIndex (boolean => positions where true;
    integer => the values themselves, with -1 meaning a null row)". *)
Definition RowIndex_of_column (c : Column) : RowIndex :=
  match col_stype c with
  | ST_BOOL =>
      let cells := true_positions 0 (col_values c) in
      RowIndex_array (mkArr32 (Z.of_nat (length cells)) cells)
  | _ =>
      RowIndex_array (mkArr32 (Z.of_nat (length (col_values c))) (col_values c))
  end.

(** ** The resolution context *)

(** Modelled from the spec: class [workframe] (declared elsewhere in the
    repository): it "holds the reference table, the nrows in play, and an
    accumulating RowIndex".  The accumulated index is kept as the sequence
    of the indices applied so far, the empty sequence being ALL. *)
Record workframe := mkWorkframe {
  wf_nrows : Z;
  wf_rowindex : list RowIndex;
}.

(** Modelled from the spec: [workframe::apply_rowindex], which "composes
    new_ri with the current accumulated index". *)
Definition apply_rowindex (ri : RowIndex) (wf : workframe) : workframe :=
  mkWorkframe (wf_nrows wf) (wf_rowindex wf ++ [ri]).

(** ** Python objects as the selector code observes them

    A [py::robj] is only inspected through its [is_*] tests and [to_*]
    conversions.  An object is modelled by what these return: a conversion
    is [Some] exactly when the matching test holds.  One object may pass
    several tests, which is why the order of the tests in [_make] matters. *)

Inductive slice_field :=
| SF_none
| SF_int (v : Z)
| SF_other.

Record oslice := mkSlice {
  sl_start : slice_field;
  sl_stop : slice_field;
  sl_step : slice_field;
}.

Record orange := mkRange {
  rg_start : Z;
  rg_stop : Z;
  rg_step : Z;
}.

(** A numpy array as [_from_nparray] reads it: the [shape] attribute and the
    text of the [dtype] attribute. *)
Record nparray := mkNparray {
  np_shape : list Z;
  np_dtype : string;
}.

(** [src.invoke("reshape", (n,))] *)
Definition np_reshape (a : nparray) (n : Z) : nparray :=
  mkNparray [n] (np_dtype a).

(** A filter expression, through the two methods [expr_in] calls. *)
Record base_expr := mkExpr {
  resolve : workframe -> SType;
  evaluate_eager : workframe -> Column;
}.

Local Unset Elimination Schemes.
Inductive robj := Robj {
  to_oslice : option oslice;
  to_base_expr : option base_expr;
  to_frame : option DataTable;
  to_int64_strict : option Z;
  is_none : bool;
  is_ellipsis : bool;
  to_nparray : option nparray;
  to_orange : option orange;
  to_oiter : option (list robj);
  is_bool : bool;
}.
Local Set Elimination Schemes.

Definition is_slice (o : robj) : bool := bool_decide (is_Some (to_oslice o)).
Definition is_PyBaseExpr (o : robj) : bool := bool_decide (is_Some (to_base_expr o)).
Definition is_frame (o : robj) : bool := bool_decide (is_Some (to_frame o)).
Definition is_int (o : robj) : bool := bool_decide (is_Some (to_int64_strict o)).
Definition is_numpy_array (o : robj) : bool := bool_decide (is_Some (to_nparray o)).
Definition is_range (o : robj) : bool := bool_decide (is_Some (to_orange o)).
Definition is_iterable (o : robj) : bool := bool_decide (is_Some (to_oiter o)).

(** Objects of one shape only. *)
Definition py_object : robj :=
  Robj None None None None false false None None None false.
Definition py_slice (a b c : slice_field) : robj :=
  Robj (Some (mkSlice a b c)) None None None false false None None None false.
Definition py_int (v : Z) : robj :=
  Robj None None None (Some v) false false None None None false.
Definition py_range (a b c : Z) : robj :=
  Robj None None None None false false None (Some (mkRange a b c)) None false.
Definition py_list (l : list robj) : robj :=
  Robj None None None None false false None None (Some l) false.
Definition py_frame (dt : DataTable) : robj :=
  Robj None None (Some dt) None false false None None None false.
Definition py_nparray (a : nparray) : robj :=
  Robj None None None None false false (Some a) None None false.

(** The methods of [py::oslice] and its two constants are declared
    elsewhere in the repository. *)
Module oslice_m.

(** Modelled from the spec: [py::oslice::NA], the marker a missing bound
    reads as. *)
Definition NA : Z := Int.int64_min.

(** Modelled from the spec: [py::oslice::MAX], the "boundary sentinel" a
    missing bound defaults to. *)
Definition MAX : Z := Int.int64_max.

Definition field_is_none (f : slice_field) : bool :=
  match f with SF_none => true | _ => false end.

Definition field_is_numeric (f : slice_field) : bool :=
  match f with SF_other => false | _ => true end.

Definition field_value (f : slice_field) : Z :=
  match f with SF_int v => v | _ => NA end.

(** Modelled from the spec: a trivial slice is the one "equivalent to
    [:]". *)
Definition is_trivial (s : oslice) : bool :=
  field_is_none (sl_start s) && field_is_none (sl_stop s)
  && field_is_none (sl_step s).

(** Modelled from the spec: a numeric slice "has defined/inferable integer
    bounds". *)
Definition is_numeric (s : oslice) : bool :=
  field_is_numeric (sl_start s) && field_is_numeric (sl_stop s)
  && field_is_numeric (sl_step s).

(** Modelled from the spec: the three bounds, [NA] when missing. *)
Definition start (s : oslice) : Z := field_value (sl_start s).
Definition stop (s : oslice) : Z := field_value (sl_stop s).
Definition step (s : oslice) : Z := field_value (sl_step s).

End oslice_m.

(** ** Exceptions

    A message is the sequence of the values streamed into the exception
    with [<<]. *)
Inductive frag :=
| Str (s : string)
| Num (z : Z)
| Obj (o : robj)
| Slc (s : oslice)
| Shape (dims : list Z)
| Sty (st : SType).

Inductive exn :=
| ValueError (msg : list frag)
| TypeError (msg : list frag)
| AssertionError.

Inductive result (A : Type) :=
| Ok (a : A)
| Throw (e : exn).

Arguments Ok {A} a.
Arguments Throw {A} e.

Definition bind {A B : Type} (r : result A) (k : A -> result B) : result B :=
  match r with
  | Ok a => k a
  | Throw e => Throw e
  end.

Notation "x <- e ;; k" := (bind e (fun x => k))
  (at level 100, e at next level, right associativity).

(** [xassert(cond)] *)
Definition xassert (cond : bool) : result unit :=
  if cond then Ok tt else Throw AssertionError.

(** The plural ending of [row], empty when [n] is 1. *)
Definition plural (n : Z) : frag := Str (if n =? 1 then EmptyString else "s").

(** ** allrows_in *)
Module allrows_in.

Definition execute (wf : workframe) : result workframe := Ok wf.

End allrows_in.

(** ** onerow_in *)
Module onerow_in.

(** The check returns the node's [irow] as it leaves it. *)
Definition post_init_check (irow : Z) (wf : workframe) : result Z :=
  let inrows := Int.to_int64 (wf_nrows wf) in
  if (irow <? - inrows) || (irow >=? inrows) then
    Throw (ValueError [Str "Row `"; Num irow;
                       Str "` is invalid for a frame with ";
                       Num inrows; Str " row"; plural inrows])
  else
    Ok (if irow <? 0 then irow + inrows else irow).

Definition execute (irow : Z) (wf : workframe) : result workframe :=
  let start := Int.to_size_t irow in
  Ok (apply_rowindex (RowIndex_slice start 1 1) wf).

(** The row-count check and execution in a row. *)
Definition resolve (irow : Z) (wf : workframe) : result workframe :=
  irow' <- post_init_check irow wf ;;
  execute irow' wf.

End onerow_in.

(** ** slice_in

    [py::oslice::normalize] and [py::orange::normalize] are defined
    elsewhere in the repository; [execute] takes them as parameters.  The first
    always yields a triple, the second reports failure by [None]. *)
Module slice_in.

Section Normalize.

Variable oslice_normalize : Z -> Z -> Z -> Z -> Z * Z * Z.
Variable orange_normalize : Z -> Z -> Z -> Z -> option (Z * Z * Z).

Definition execute (istart istop istep : Z) (is_slice : bool)
    (wf : workframe) : result workframe :=
  let nrows := wf_nrows wf in
  triple <-
    (if is_slice then Ok (oslice_normalize nrows istart istop istep)
     else
       match orange_normalize nrows istart istop istep with
       | Some t => Ok t
       | None =>
           Throw (ValueError [Str "range("; Num istart; Str ", ";
                              Num istop; Str ", "; Num istep;
                              Str ") cannot be applied to a Frame with ";
                              Num nrows; Str " row"; plural nrows])
       end) ;;
  let '(start, count, step) := triple in
  Ok (apply_rowindex (RowIndex_slice start count step) wf).

End Normalize.

End slice_in.

(** ** expr_in *)
Module expr_in.

Definition execute (expr : base_expr) (wf : workframe) : result workframe :=
  let st := resolve expr wf in
  if negb (SType_eqb st ST_BOOL) then
    Throw (TypeError [Str "Filter expression must be of `bool8` type, instead it was of type ";
                      Sty st])
  else
    let col := evaluate_eager expr wf in
    let res := RowIndex_of_column col in
    Ok (apply_rowindex res wf).

End expr_in.

(** ** frame_in *)
Module frame_in.

(** The constructor; the node keeps the frame. *)
Definition make (dt : DataTable) : result DataTable :=
  if negb (dt_ncols dt =? 1) then
    Throw (ValueError [Str "Only a single-column Frame may be used as `i` selector, instead got a Frame with ";
                       Num (dt_ncols dt); Str " columns"])
  else
    let st := col_stype (column0 dt) in
    if negb (SType_eqb st ST_BOOL || LType_eqb (ltype st) LT_INT) then
      Throw (TypeError [Str "A Frame which is used as an `i` selector should be either boolean or integer, instead got `";
                        Sty st; Str "`"])
    else Ok dt.

Definition post_init_check (dt : DataTable) (wf : workframe) : result unit :=
  let col := column0 dt in
  let nrows := wf_nrows wf in
  if SType_eqb (col_stype col) ST_BOOL then
    if negb (col_nrows col =? nrows) then
      Throw (ValueError [Str "A boolean column used as `i` selector has ";
                         Num (col_nrows col); Str " row"; plural (col_nrows col);
                         Str ", but applied to a Frame with ";
                         Num nrows; Str " row"; plural nrows])
    else Ok tt
  else
    let min := min_int64 col in
    let max := max_int64 col in
    if min <? -1 then
      Throw (ValueError [Str "An integer column used as an `i` selector contains invalid negative indices: ";
                         Num min])
    else if max >=? Int.to_int64 nrows then
      Throw (ValueError [Str "An integer column used as an `i` selector contains index ";
                         Num max; Str " which is not valid for a Frame with ";
                         Num nrows; Str " row"; plural nrows])
    else Ok tt.

Definition execute (dt : DataTable) (wf : workframe) : result workframe :=
  let ri := RowIndex_of_column (column0 dt) in
  Ok (apply_rowindex ri wf).

(** Construction, the row-count check and execution in a row. *)
Definition resolve (src : DataTable) (wf : workframe) : result workframe :=
  dt <- make src ;;
  _ <- post_init_check dt wf ;;
  execute dt wf.

End frame_in.

(** ** multislice_in *)
Module multislice_in.

Inductive item_kind := INT | SLICE | RANGE.

Record item := mkItem {
  start : Z;
  stop : Z;
  step : Z;
  kind : item_kind;
}.

(** The locals of the constructor's loop: the counter [i], [max_nrows],
    and the vector [items]. *)
Record ctor_state := mkCtor {
  i : Z;
  max_nrows : Z;
  items : list item;
}.

(** The element count the constructor computes for a range.  The value is
    the source's where no intermediate result leaves [int64_t]
    ([range_count_fits] below); the properties that depend on the value ask
    for that. *)
Definition range_count (start stop step : Z) : Z :=
  if step >? 0 then Int.div (stop - start + step - 1) step
  else Int.div (start - stop - step - 1) (- step).

(** The fields of a range and every intermediate result of [range_count]
    fit an [int64_t]. *)
Definition range_count_fits (start stop step : Z) : Prop :=
  Int.fits start /\ Int.fits stop /\ Int.fits step
  /\ (if step >? 0
      then Int.fits (stop - start) /\ Int.fits (stop - start + step)
           /\ Int.fits (stop - start + step - 1)
      else Int.fits (start - stop) /\ Int.fits (start - stop - step)
           /\ Int.fits (start - stop - step - 1) /\ Int.fits (- step)).

(** The same for what the constructor computes from a range of [count]
    elements: the last element, the recorded stop, and the two row counts
    the ends ask for. *)
Definition range_item_fits (start step count : Z) : Prop :=
  Int.fits ((count - 1) * step) /\ Int.fits (start + (count - 1) * step)
  /\ Int.fits (count * step) /\ Int.fits (start + count * step)
  /\ Int.fits (start + 1) /\ Int.fits (- start)
  /\ Int.fits (start + (count - 1) * step + 1)
  /\ Int.fits (- (start + (count - 1) * step)).

(** One turn of the constructor's loop.  The sums and products of the range
    branch are the source's where they fit an [int64_t]
    ([range_item_fits]). *)
Definition ctor_elem (st : ctor_state) (elem : robj) : result ctor_state :=
  match to_int64_strict elem with
  | Some value =>
      let n := if value >=? 0 then Int.to_size_t (value + 1)
               else Int.to_size_t (- value) in
      let max_nrows := if n >? max_nrows st then n else max_nrows st in
      Ok (mkCtor (Int.to_size_t (i st + 1)) max_nrows
                 (items st ++ [mkItem value 0 0 INT]))
  | None =>
  match to_orange elem with
  | Some rr =>
      let start := rg_start rr in
      let stop := rg_stop rr in
      let step := rg_step rr in
      let count := range_count start stop step in
      if count <=? 0 then Ok st
      else
        let last := start + (count - 1) * step in
        if negb (Bool.eqb (start >=? 0) (last >=? 0)) then
          Throw (ValueError [Str "Invalid wrap-around range("; Num start;
                             Str ", "; Num stop; Str ", "; Num step;
                             Str ") for an `i` selector"])
        else
          let stop := start + count * step in
          let n1 := Int.to_size_t (if start >? 0 then start + 1 else - start) in
          let n2 := Int.to_size_t (if last >? 0 then last + 1 else - last) in
          let max_nrows := if n1 >? max_nrows st then n1 else max_nrows st in
          let max_nrows := if n2 >? max_nrows then n2 else max_nrows in
          Ok (mkCtor (Int.to_size_t (i st + 1)) max_nrows
                     (items st ++ [mkItem start stop step RANGE]))
  | None =>
  match to_oslice elem with
  | Some ss =>
      if negb (oslice_m.is_numeric ss) then
        Throw (TypeError [Str "Only integer-valued slices are allowed"])
      else
        let start := oslice_m.start ss in
        let stop := oslice_m.stop ss in
        let step := oslice_m.step ss in
        if step =? 0 then
          if (stop <? 0) || (start =? oslice_m.NA) || (stop =? oslice_m.NA) then
            Throw (ValueError [Str "Invalid "; Slc ss;
                               Str ": when step is 0, both start and stop must be present, and stop must be non-negative"])
          else
            Ok (mkCtor (Int.to_size_t (i st + 1)) (max_nrows st)
                       (items st ++ [mkItem start stop step SLICE]))
        else
          let step := if step =? oslice_m.NA then 1 else step in
          let start := if start =? oslice_m.NA
                       then (if step >? 0 then 0 else oslice_m.MAX)
                       else start in
          let stop := if stop =? oslice_m.NA
                      then (if step >? 0 then oslice_m.MAX else - oslice_m.MAX)
                      else stop in
          Ok (mkCtor (Int.to_size_t (i st + 1)) (max_nrows st)
                     (items st ++ [mkItem start stop step SLICE]))
  | None =>
      Throw (TypeError [Str "Invalid item "; Obj elem; Str " at index ";
                        Num (i st); Str " in the `i` selector list"])
  end end end.

(** [for (auto elem : src.to_oiter())] *)
Fixpoint ctor_loop (st : ctor_state) (elems : list robj) : result ctor_state :=
  match elems with
  | [] => Ok st
  | elem :: rest => st' <- ctor_elem st elem ;; ctor_loop st' rest
  end.

(** The constructor; the node keeps [items] and [min_nrows]. *)
Definition make (elems : list robj) : result (list item * Z) :=
  st <- ctor_loop (mkCtor 0 0 []) elems ;;
  Ok (items st, max_nrows st).

Definition post_init_check (min_nrows : Z) (wf : workframe) : result unit :=
  if wf_nrows wf <? min_nrows then
    Throw (ValueError [Str "`i` selector is valid for a Frame with at least ";
                       Num min_nrows; Str " row"; plural min_nrows])
  else Ok tt.

(** One turn of the first loop of [execute]: the item as the loop leaves
    it, and the new [total_count].  The sums are the source's where they fit
    an [int64_t]. *)
Definition count_item (inrows : Z) (it : item) (total_count : Z)
    : result (item * Z) :=
  match kind it with
  | INT =>
      let start := if start it <? 0 then start it + inrows else start it in
      _ <- xassert ((start >=? 0) && (start <? inrows)) ;;
      Ok (mkItem start (stop it) (step it) INT,
          Int.to_size_t (total_count + 1))
  | RANGE =>
      let start := if start it <? 0 then start it + inrows else start it in
      let stop := if stop it <? 0 then stop it + inrows else stop it in
      let icount := Int.div (stop - start) (step it) in
      Ok (mkItem start stop (step it) RANGE,
          Int.to_size_t (total_count + Int.to_size_t icount))
  | SLICE =>
      let start := if start it <? 0 then start it + inrows else start it in
      let start := if start <? 0 then 0 else start in
      if start >? inrows then
        Ok (mkItem start (stop it) (step it) SLICE, total_count)
      else
        let stop := if stop it <? 0 then stop it + inrows else stop it in
        let stop := if stop <? 0 then -1 else stop in
        let stop := if stop >? inrows then inrows else stop in
        let icount := 0 in
        let icount :=
          if (step it >? 0) && (stop >? start)
          then Int.div (stop - start + step it - 1) (step it)
          else icount in
        let icount :=
          if (step it <? 0) && (stop <? start)
          then Int.div (start - stop - step it - 1) (- step it)
          else icount in
        Ok (mkItem start stop (step it) SLICE,
            Int.to_size_t (total_count + Int.to_size_t icount))
  end.

Fixpoint count_loop (inrows : Z) (its : list item) (total_count : Z)
    : result (list item * Z) :=
  match its with
  | [] => Ok ([], total_count)
  | it :: rest =>
      r <- count_item inrows it total_count ;;
      r' <- count_loop inrows rest (snd r) ;;
      Ok (fst r :: fst r', snd r')
  end.

(** [for (int64_t k = k0; continue(k); k += incr)], collecting [k] at each
    turn; [fuel] bounds the number of turns. *)
Fixpoint for_loop (fuel : nat) (continue : Z -> bool) (incr : Z) (k : Z)
    : list Z :=
  match fuel with
  | O => []
  | S fuel' =>
      if continue k then k :: for_loop fuel' continue incr (k + incr)
      else []
  end.

(** The cells one item writes in the second loop of [execute]. *)
Definition fill_item (it : item) : list Z :=
  match kind it with
  | INT => [Int.to_int32 (start it)]
  | _ =>
      if step it >? 0 then
        map Int.to_int32
            (for_loop (Z.to_nat (stop it - start it))
                      (fun k => k <? stop it) (step it) (start it))
      else if step it <? 0 then
        map Int.to_int32
            (for_loop (Z.to_nat (start it - stop it))
                      (fun k => k >? stop it) (step it) (start it))
      else
        map (fun _ => Int.to_int32 (start it))
            (for_loop (Z.to_nat (stop it)) (fun k => k <? stop it) 1 0)
  end.

(** The array is recorded with the size it was allocated with and the cells
    the second loop writes, in order.  The source is within the array only
    when the number of cells equals the size; a result with more cells than
    the size stands for writes outside the array. *)
Definition execute (its : list item) (wf : workframe) : result workframe :=
  let inrows := Int.to_int64 (wf_nrows wf) in
  r <- count_loop inrows its 0 ;;
  let '(its, total_count) := r in
  let indices := mkArr32 total_count (flat_map fill_item its) in
  Ok (apply_rowindex (RowIndex_array indices) wf).

(** Construction, the row-count check and execution in a row. *)
Definition resolve (elems : list robj) (wf : workframe) : result workframe :=
  node <- make elems ;;
  _ <- post_init_check (snd node) wf ;;
  execute (fst node) wf.

End multislice_in.

(** ** std::string::compare *)
Module std_string.

(** The sign of the lexicographic comparison of two strings. *)
Fixpoint compare_all (a b : string) : Z :=
  match a, b with
  | EmptyString, EmptyString => 0
  | EmptyString, String _ _ => -1
  | String _ _, EmptyString => 1
  | String x a', String y b' =>
      match Ascii.compare x y with
      | Eq => compare_all a' b'
      | Lt => -1
      | Gt => 1
      end
  end.

(** [this.compare(pos, len, s)]: the characters of [this] from [pos], at
    most [len] of them, against [s]; zero exactly when they are equal. *)
Definition compare (this : string) (pos len : nat) (s : string) : Z :=
  compare_all (String.substring pos len this) s.

(** The conversion of an [int] to [bool]. *)
Definition to_bool (r : Z) : bool := negb (r =? 0).

End std_string.

(** ** The node family and the factory *)

Inductive i_node :=
| allrows_in
| onerow_in (irow : Z)
| slice_in (istart istop istep : Z) (is_slice : bool)
| expr_in (expr : base_expr)
| frame_in (dt : DataTable)
| multislice_in (items : list multislice_in.item) (min_nrows : Z).

Section Factory.

(** The call of the [Frame] type on a numpy array, defined elsewhere in the
    repository; it may raise. *)
Variable Frame_call : nparray -> result DataTable.

Definition _from_nparray (src : nparray) : result i_node :=
  let shape := np_shape src in
  let ndims := Z.of_nat (length shape) in
  let '(src, shape, ndims) :=
    if ndims =? 2 then
      let dim0 := nth 0 shape 0 in
      let dim1 := nth 1 shape 0 in
      if (dim0 =? 1) || (dim1 =? 1) then
        let src := np_reshape src (Int.to_size_t (dim0 * dim1)) in
        (src, np_shape src, Z.of_nat (length (np_shape src)))
      else (src, shape, ndims)
    else (src, shape, ndims) in
  if negb (ndims =? 1) then
    Throw (ValueError [Str "Only a single-dimensional numpy array is allowed as `i` selector, got array of shape ";
                       Shape shape])
  else
    let dtype_str := np_dtype src in
    let is_bool := std_string.to_bool (std_string.compare dtype_str 0 4 "bool") in
    let is_int := std_string.to_bool (std_string.compare dtype_str 0 3 "int") in
    if negb (is_bool || is_int) then
      Throw (TypeError [Str "Either a boolean or an integer numpy array expected for an `i` selector, got array of dtype `";
                        Str dtype_str; Str "`"])
    else
      frame <- Frame_call src ;;
      dt <- frame_in.make frame ;;
      Ok (frame_in dt).

(** [nullptr] is [None]. *)
Definition _make (src : robj) : result (option i_node) :=
  match to_oslice src with
  | Some ssrc =>
      if oslice_m.is_trivial ssrc then Ok (Some allrows_in)
      else if oslice_m.is_numeric ssrc then
        Ok (Some (slice_in (oslice_m.start ssrc) (oslice_m.stop ssrc)
                           (oslice_m.step ssrc) true))
      else Throw (TypeError [Obj src; Str " is not integer-valued"])
  | None =>
  match to_base_expr src with
  | Some e => Ok (Some (expr_in e))
  | None =>
  match to_frame src with
  | Some f => dt <- frame_in.make f ;; Ok (Some (frame_in dt))
  | None =>
  match to_int64_strict src with
  | Some val => Ok (Some (onerow_in val))
  | None =>
  if is_none src || is_ellipsis src then Ok (Some allrows_in)
  else
  match to_nparray src with
  | Some a => node <- _from_nparray a ;; Ok (Some node)
  | None =>
  match to_orange src with
  | Some ss =>
      Ok (Some (slice_in (rg_start ss) (rg_stop ss) (rg_step ss) false))
  | None =>
  match to_oiter src with
  | Some elems =>
      node <- multislice_in.make elems ;;
      Ok (Some (multislice_in (fst node) (snd node)))
  | None =>
  if is_bool src then
    Throw (TypeError [Str "Boolean value cannot be used as an `i` expression"])
  else Ok None
  end end end end end end end.

Definition make (src : robj) : result (option i_node) := _make src.

Variable oslice_normalize : Z -> Z -> Z -> Z -> Z * Z * Z.
Variable orange_normalize : Z -> Z -> Z -> Z -> option (Z * Z * Z).

(** The virtual methods, by the class of the node.  [post_init_check]
    returns the node as the check leaves it. *)
Definition post_init_check (node : i_node) (wf : workframe) : result i_node :=
  match node with
  | onerow_in irow =>
      irow' <- onerow_in.post_init_check irow wf ;; Ok (onerow_in irow')
  | frame_in dt =>
      _ <- frame_in.post_init_check dt wf ;; Ok node
  | multislice_in _ min_nrows =>
      _ <- multislice_in.post_init_check min_nrows wf ;; Ok node
  | _ => Ok node
  end.

Definition execute (node : i_node) (wf : workframe) : result workframe :=
  match node with
  | allrows_in => allrows_in.execute wf
  | onerow_in irow => onerow_in.execute irow wf
  | slice_in istart istop istep is_slice =>
      slice_in.execute oslice_normalize orange_normalize
                       istart istop istep is_slice wf
  | expr_in expr => expr_in.execute expr wf
  | frame_in dt => frame_in.execute dt wf
  | multislice_in its _ => multislice_in.execute its wf
  end.

End Factory.

(** ** The column implementation contract ([ColumnImpl]) *)
Module column_impl.

Section Contract.

(** The statistics cache and the conversion of one element between two
    types are defined elsewhere in the repository. *)
Variable Stats : Type.
Variable cast_value : SType -> SType -> option Z -> option Z.

(** A [Column] is a handle on an implementation object. *)
Record Column := mkColumn {
  impl_ : positive;
}.

(** The members of [ColumnImpl]; [elements] is what [get_element]
    returns row by row ([None] for a missing value), [children] what
    [child] returns. *)
Record ColumnImpl := mkImpl {
  type_ : SType;
  nrows_ : Z;
  refcount_ : Z;
  stats_ : option Stats;
  children : list Column;
  elements : list (option Z);
}.

Definition nrows (c : ColumnImpl) : Z := nrows_ c.
Definition type (c : ColumnImpl) : SType := type_ c.

(** Modelled from the spec: [ColumnImpl::cast_replace] (the header only
    declares it): it "converts values into new_type, written
    into target" and "must not mutate the receiver"; "an implementation
    may move thiscol before storing a new Column there".  The receiver is
    the object at [this] in the store [h]; the result is the new value of
    [thiscol] and the new store.  The column moved out of [thiscol]
    becomes the child of the new object. *)
Definition cast_replace (this : positive) (new_type : SType)
    (thiscol : Column) (h : gmap positive ColumnImpl)
    : option (Column * gmap positive ColumnImpl) :=
  match h !! this with
  | None => None
  | Some self =>
      let l := fresh (dom h) in
      let out :=
        mkImpl new_type (nrows_ self) 1 None [thiscol]
               (map (cast_value (type_ self) new_type) (elements self)) in
      Some (mkColumn l, <[l := out]> h)
  end.

End Contract.

End column_impl.

(** A stand-in for the [Frame] call in the closed examples: a table of one
    column, of 32-bit integers when the dtype text starts with [int], of
    booleans when it starts with [bool], of doubles otherwise. *)
Definition Frame_call_sample (a : nparray) : result DataTable :=
  let st :=
    if std_string.compare (np_dtype a) 0 3 "int" =? 0 then ST_INT32
    else if std_string.compare (np_dtype a) 0 4 "bool" =? 0 then ST_BOOL
    else ST_FLOAT64 in
  Ok (mkDataTable [mkColumn st (repeat 0 (Z.to_nat (nth 0 (np_shape a) 0)))]).

(** * Properties *)

(** ** Conversions between integer types *)

Lemma to_int64_id (z : Z) : 0 <= z < 2 ^ 63 -> Int.to_int64 z = z.
Proof.
  intros Hz. unfold Int.to_int64.
  rewrite Z.mod_small by lia. lia.
Qed.

Lemma to_size_t_id (z : Z) : 0 <= z < 2 ^ 64 -> Int.to_size_t z = z.
Proof. intros Hz. unfold Int.to_size_t. now apply Z.mod_small. Qed.

(** ** onerow_in *)

(** C6. For a frame of N rows and the one-row selector of offset k:
    when -N <= k < N, resolution yields the slice row index of start
    k mod N (k + N for a negative k), count 1 and step 1; otherwise it
    raises a value error whose message names k and N. *)
Theorem onerow_resolution (k : Z) (wf : workframe) :
  0 <= wf_nrows wf < 2 ^ 63 ->
  let N := wf_nrows wf in
  (- N <= k < N ->
     onerow_in.resolve k wf
       = Ok (apply_rowindex (RowIndex_slice (k mod N) 1 1) wf)
     /\ 0 <= k mod N < N
     /\ (k < 0 -> k mod N = k + N)) /\
  (~ (- N <= k < N) ->
     exists msg,
       onerow_in.resolve k wf = Throw (ValueError msg)
       /\ In (Num k) msg /\ In (Num N) msg).
Proof.
  intros HN N.
  unfold onerow_in.resolve, onerow_in.post_init_check.
  rewrite (to_int64_id _ HN). fold N.
  split.
  - intros Hk.
    assert (Hmod : k mod N = if k <? 0 then k + N else k).
    { destruct (Z.ltb_spec k 0).
      + symmetry. apply (Z.mod_unique_pos k N (-1) (k + N)); lia.
      + apply Z.mod_small. lia. }
    replace ((k <? - N) || (k >=? N)) with false.
    2:{ symmetry. apply orb_false_iff. split.
        - apply Z.ltb_ge. lia.
        - rewrite Z.geb_leb. apply Z.leb_gt. lia. }
    cbn [bind]. unfold onerow_in.execute.
    rewrite <- Hmod.
    rewrite to_size_t_id by (rewrite Hmod; destruct (k <? 0) eqn:E;
      [apply Z.ltb_lt in E | apply Z.ltb_ge in E]; subst N; lia).
    split; [reflexivity|]. rewrite Hmod.
    destruct (Z.ltb_spec k 0); split; lia.
  - intros Hk.
    replace ((k <? - N) || (k >=? N)) with true.
    2:{ symmetry. apply orb_true_iff.
        destruct (Z.ltb_spec k (- N)); [now left|right].
        rewrite Z.geb_leb. apply Z.leb_le. lia. }
    cbn [bind]. eexists. split; [reflexivity|].
    split; simpl; auto.
Qed.

Lemma onerow_resolution_witness :
  onerow_in.resolve (-3) (mkWorkframe 10 [])
    = Ok (apply_rowindex (RowIndex_slice 7 1 1) (mkWorkframe 10 [])).
Proof.
  assert (H : 0 <= wf_nrows (mkWorkframe 10 []) < 2 ^ 63) by (simpl; lia).
  destruct (onerow_resolution (-3) (mkWorkframe 10 []) H) as [Hin _].
  destruct Hin as [Heq _]; [simpl; lia|].
  exact Heq.
Defined.

(** ** The numpy array selector *)

(** The two flags of [_from_nparray] are never both false: a text cannot
    start with [bool] and with [int] at once, and each flag is true when the
    text does not start with its word. *)
Lemma dtype_flags_never_both_false (dtype_str : string) :
  std_string.to_bool (std_string.compare dtype_str 0 4 "bool")
  || std_string.to_bool (std_string.compare dtype_str 0 3 "int") = true.
Proof.
  destruct dtype_str as [|c rest]; [reflexivity|].
  unfold std_string.compare. cbn [String.substring std_string.compare_all].
  destruct (Ascii.compare c "b"%char) eqn:Eb.
  - apply Ascii.compare_eq_iff in Eb. subst c.
    apply orb_true_iff. right. reflexivity.
  - reflexivity.
  - reflexivity.
Qed.

(** The flags as [_from_nparray] computes them: [is_bool] is false for a
    boolean dtype and true for the others, and likewise [is_int]. *)
Example dtype_flags_values :
  let flags dtype_str :=
    (std_string.to_bool (std_string.compare dtype_str 0 4 "bool"),
     std_string.to_bool (std_string.compare dtype_str 0 3 "int")) in
  flags "bool" = (false, true)
  /\ flags "int64" = (true, false)
  /\ flags "float64" = (true, true).
Proof. repeat split; reflexivity. Qed.

(** A one-dimensional array of any dtype passes the dtype test of
    [_from_nparray] and is handed to the [Frame] call. *)
Lemma from_nparray_1d (Frame_call : nparray -> result DataTable)
    (n : Z) (dtype_str : string) :
  _from_nparray Frame_call (mkNparray [n] dtype_str)
  = (frame <- Frame_call (mkNparray [n] dtype_str) ;;
     dt <- frame_in.make frame ;;
     Ok (frame_in dt)).
Proof.
  unfold _from_nparray. cbn [np_shape np_dtype length Z.of_nat].
  change (Z.of_nat 1 =? 2) with false. cbn iota.
  change (negb (Z.of_nat 1 =? 1)) with false. cbn iota.
  rewrite dtype_flags_never_both_false. reflexivity.
Qed.




(** ** The factory *)

(** C2, as the code has it: for a selector value that passes none of the
    tests of the factory, [_make] returns the null node and raises
    nothing. *)
Theorem make_unrecognized_is_null
    (Frame_call : nparray -> result DataTable) (src : robj) :
  is_slice src = false ->
  is_PyBaseExpr src = false ->
  is_frame src = false ->
  is_int src = false ->
  is_none src = false ->
  is_ellipsis src = false ->
  is_numpy_array src = false ->
  is_range src = false ->
  is_iterable src = false ->
  is_bool src = false ->
  _make Frame_call src = Ok None.
Proof.
  unfold is_slice, is_PyBaseExpr, is_frame, is_int, is_numpy_array,
    is_range, is_iterable.
  intros H1 H2 H3 H4 H5 H6 H7 H8 H9 H10.
  repeat match goal with
         | H : bool_decide (is_Some _) = false |- _ =>
             apply bool_decide_eq_false in H;
             apply eq_None_not_Some in H
         end.
  unfold _make. rewrite H1, H2, H3, H4, H5, H6, H7, H8, H9, H10.
  reflexivity.
Qed.

Lemma make_unrecognized_is_null_witness :
  _make Frame_call_sample py_object = Ok None.
Proof.
  apply (make_unrecognized_is_null Frame_call_sample py_object);
    reflexivity.
Defined.

(** C2, as stated, fails: the object that passes no test makes the factory
    return the null node, not raise. *)
Lemma make_unrecognized_raises_counterexample :
  (is_slice py_object = false /\ is_PyBaseExpr py_object = false
   /\ is_frame py_object = false /\ is_int py_object = false
   /\ is_none py_object = false /\ is_ellipsis py_object = false
   /\ is_numpy_array py_object = false /\ is_range py_object = false
   /\ is_iterable py_object = false /\ is_bool py_object = false)
  /\ ~ (exists e, _make Frame_call_sample py_object = Throw e).
Proof.
  split.
  - repeat split; reflexivity.
  - intros [e He]. discriminate He.
Qed.

(** The factory on objects of one shape, and the virtual methods on the
    node it builds: they are the functions of the node's class. *)
Lemma make_py_int (Frame_call : nparray -> result DataTable) (k : Z) :
  _make Frame_call (py_int k) = Ok (Some (onerow_in k)).
Proof. reflexivity. Qed.

Lemma make_py_frame (Frame_call : nparray -> result DataTable)
    (src : DataTable) :
  _make Frame_call (py_frame src)
  = (dt <- frame_in.make src ;; Ok (Some (frame_in dt))).
Proof. reflexivity. Qed.

Lemma make_py_list (Frame_call : nparray -> result DataTable)
    (elems : list robj) :
  _make Frame_call (py_list elems)
  = (node <- multislice_in.make elems ;;
     Ok (Some (multislice_in (fst node) (snd node)))).
Proof. reflexivity. Qed.

Lemma methods_onerow_in
    (oslice_normalize : Z -> Z -> Z -> Z -> Z * Z * Z)
    (orange_normalize : Z -> Z -> Z -> Z -> option (Z * Z * Z))
    (k : Z) (wf : workframe) :
  (node <- post_init_check (onerow_in k) wf ;;
   execute oslice_normalize orange_normalize node wf)
  = onerow_in.resolve k wf.
Proof.
  unfold onerow_in.resolve. cbn [post_init_check].
  destruct (onerow_in.post_init_check k wf); reflexivity.
Qed.

Lemma methods_frame_in
    (oslice_normalize : Z -> Z -> Z -> Z -> Z * Z * Z)
    (orange_normalize : Z -> Z -> Z -> Z -> option (Z * Z * Z))
    (dt : DataTable) (wf : workframe) :
  (node <- post_init_check (frame_in dt) wf ;;
   execute oslice_normalize orange_normalize node wf)
  = (_ <- frame_in.post_init_check dt wf ;; frame_in.execute dt wf).
Proof.
  cbn [post_init_check].
  destruct (frame_in.post_init_check dt wf); reflexivity.
Qed.

Lemma methods_multislice_in
    (oslice_normalize : Z -> Z -> Z -> Z -> Z * Z * Z)
    (orange_normalize : Z -> Z -> Z -> Z -> option (Z * Z * Z))
    (its : list multislice_in.item) (min_nrows : Z) (wf : workframe) :
  (node <- post_init_check (multislice_in its min_nrows) wf ;;
   execute oslice_normalize orange_normalize node wf)
  = (_ <- multislice_in.post_init_check min_nrows wf ;;
     multislice_in.execute its wf).
Proof.
  cbn [post_init_check].
  destruct (multislice_in.post_init_check min_nrows wf); reflexivity.
Qed.

(** ** multislice_in on an example *)

(** C7. The selector [[5, slice(0, 3), range(2, 0, -1)]] against a frame of
    10 rows: the factory builds a multislice node, the row-count check
    passes, and execution applies the array row index 5, 0, 1, 2, 2, 1. *)
Theorem multislice_example
    (Frame_call : nparray -> result DataTable)
    (oslice_normalize : Z -> Z -> Z -> Z -> Z * Z * Z)
    (orange_normalize : Z -> Z -> Z -> Z -> option (Z * Z * Z))
    (wf : workframe) :
  wf_nrows wf = 10 ->
  let src := py_list [py_int 5; py_slice (SF_int 0) (SF_int 3) SF_none;
                      py_range 2 0 (-1)] in
  exists node,
    _make Frame_call src = Ok (Some node)
    /\ post_init_check node wf = Ok node
    /\ execute oslice_normalize orange_normalize node wf
       = Ok (apply_rowindex
               (RowIndex_array (mkArr32 6 [5; 0; 1; 2; 2; 1])) wf)
    /\ multislice_in.resolve (default [] (to_oiter src)) wf
       = Ok (apply_rowindex
               (RowIndex_array (mkArr32 6 [5; 0; 1; 2; 2; 1])) wf).
Proof.
  intros Hn src. destruct wf as [n ri]. cbn in Hn. subst n.
  eexists. split; [reflexivity|].
  split; [reflexivity|]. split; reflexivity.
Qed.

Lemma multislice_example_witness :
  multislice_in.resolve
    [py_int 5; py_slice (SF_int 0) (SF_int 3) SF_none; py_range 2 0 (-1)]
    (mkWorkframe 10 [])
  = Ok (mkWorkframe 10 [RowIndex_array (mkArr32 6 [5; 0; 1; 2; 2; 1])]).
Proof.
  destruct (multislice_example Frame_call_sample
              (fun _ _ _ _ => (0, 0, 1)) (fun _ _ _ _ => None)
              (mkWorkframe 10 []) eq_refl) as [node [_ [_ [_ H]]]].
  exact H.
Defined.

(** ** The constructor of multislice_in *)

Lemma bind_Ok {A B : Type} (a : A) (k : A -> result B) :
  (x <- Ok a ;; k x) = k a.
Proof. reflexivity. Qed.

Lemma gtb_max (a b : Z) : (if a >? b then a else b) = Z.max a b.
Proof. destruct (Z.gtb_spec a b); lia. Qed.

Lemma ctor_loop_app (st : multislice_in.ctor_state) (a b : list robj) :
  multislice_in.ctor_loop st (a ++ b)
  = (st' <- multislice_in.ctor_loop st a ;; multislice_in.ctor_loop st' b).
Proof.
  revert st. induction a as [|x a IH]; intros st; [reflexivity|].
  cbn [app multislice_in.ctor_loop].
  destruct (multislice_in.ctor_elem st x) as [st'|e]; cbn [bind].
  - apply IH.
  - reflexivity.
Qed.

(** A range of computed count at most zero leaves the locals of the
    constructor as they are. *)
Lemma ctor_elem_empty_range (st : multislice_in.ctor_state)
    (r : robj) (rr : orange) :
  to_int64_strict r = None ->
  to_orange r = Some rr ->
  multislice_in.range_count (rg_start rr) (rg_stop rr) (rg_step rr) <= 0 ->
  multislice_in.ctor_elem st r = Ok st.
Proof.
  intros Hint Hrange Hcount. unfold multislice_in.ctor_elem.
  rewrite Hint, Hrange. cbn zeta.
  destruct (Z.leb_spec
              (multislice_in.range_count (rg_start rr) (rg_stop rr) (rg_step rr))
              0); [reflexivity|lia].
Qed.

(** C8. A range item whose computed count is at most zero changes nothing:
    the node built from the list with the item is the node built from the
    list without it, resolution gives the same outcome, and the list made of
    the item alone resolves to the empty array row index.  The fields of the
    range and the intermediate results of the count fit an [int64_t]. *)
Theorem multislice_empty_range_skipped
    (pre post : list robj) (r : robj) (rr : orange) (wf : workframe) :
  to_int64_strict r = None ->
  to_orange r = Some rr ->
  multislice_in.range_count_fits (rg_start rr) (rg_stop rr) (rg_step rr) ->
  multislice_in.range_count (rg_start rr) (rg_stop rr) (rg_step rr) <= 0 ->
  0 <= wf_nrows wf ->
  multislice_in.make (pre ++ r :: post) = multislice_in.make (pre ++ post)
  /\ multislice_in.resolve (pre ++ r :: post) wf
     = multislice_in.resolve (pre ++ post) wf
  /\ multislice_in.resolve [r] wf
     = Ok (apply_rowindex (RowIndex_array (mkArr32 0 [])) wf).
Proof.
  intros Hint Hrange _ Hcount Hn.
  assert (Hmake : multislice_in.make (pre ++ r :: post)
                  = multislice_in.make (pre ++ post)).
  { unfold multislice_in.make. rewrite !ctor_loop_app.
    destruct (multislice_in.ctor_loop _ pre) as [st|e]; [|reflexivity].
    rewrite !bind_Ok. cbn [multislice_in.ctor_loop].
    rewrite (ctor_elem_empty_range st r rr Hint Hrange Hcount).
    reflexivity. }
  split; [exact Hmake|]. split.
  - unfold multislice_in.resolve. rewrite Hmake. reflexivity.
  - unfold multislice_in.resolve, multislice_in.make.
    cbn [multislice_in.ctor_loop].
    rewrite (ctor_elem_empty_range _ r rr Hint Hrange Hcount).
    cbn [bind multislice_in.items multislice_in.max_nrows fst snd].
    unfold multislice_in.post_init_check.
    destruct (Z.ltb_spec (wf_nrows wf) 0); [lia|]. reflexivity.
Qed.

Lemma multislice_empty_range_skipped_witness :
  multislice_in.resolve [py_int 1; py_range 5 0 1; py_int 2] (mkWorkframe 4 [])
  = multislice_in.resolve [py_int 1; py_int 2] (mkWorkframe 4 [])
  /\ multislice_in.resolve [py_range 5 5 1] (mkWorkframe 4 [])
     = Ok (apply_rowindex (RowIndex_array (mkArr32 0 [])) (mkWorkframe 4 [])).
Proof.
  split.
  - apply (multislice_empty_range_skipped [py_int 1] [py_int 2]
             (py_range 5 0 1) (mkRange 5 0 1) (mkWorkframe 4 []));
      [reflexivity | reflexivity
      | unfold multislice_in.range_count_fits, Int.fits, Int.int64_min,
          Int.int64_max; simpl; lia
      | vm_compute; discriminate | simpl; lia].
  - apply (multislice_empty_range_skipped [] []
             (py_range 5 5 1) (mkRange 5 5 1) (mkWorkframe 4 []));
      [reflexivity | reflexivity
      | unfold multislice_in.range_count_fits, Int.fits, Int.int64_min,
          Int.int64_max; simpl; lia
      | vm_compute; discriminate | simpl; lia].
Defined.

(** The row-count check of a multislice passes exactly when the frame has
    at least [min_nrows] rows. *)
Lemma multislice_post_init_check_spec (min_nrows : Z) (wf : workframe) :
  (min_nrows <= wf_nrows wf ->
     multislice_in.post_init_check min_nrows wf = Ok tt)
  /\ (wf_nrows wf < min_nrows ->
        exists msg,
          multislice_in.post_init_check min_nrows wf = Throw (ValueError msg)).
Proof.
  unfold multislice_in.post_init_check.
  destruct (Z.ltb_spec (wf_nrows wf) min_nrows); split; intros; try lia.
  - eexists. reflexivity.
  - reflexivity.
Qed.

(** C9, as the code has it.  For a range item of positive computed count,
    met by the constructor of a multislice after the items [pre]: when its
    first and last elements differ in sign, construction raises a value
    error; when they agree, the item is recorded with its stop moved to
    start + count * step and the minimum row count raised to cover both
    ends.  The row-count check then passes exactly when the frame has at
    least that many rows.  The fields of the range and every intermediate
    result of the constructor fit an [int64_t]. *)
Theorem multislice_range_sign_check
    (st0 st : multislice_in.ctor_state) (pre post : list robj)
    (r : robj) (rr : orange) :
  to_int64_strict r = None ->
  to_orange r = Some rr ->
  let start := rg_start rr in
  let step := rg_step rr in
  let count := multislice_in.range_count start (rg_stop rr) step in
  let last := start + (count - 1) * step in
  let n1 := Int.to_size_t (if start >? 0 then start + 1 else - start) in
  let n2 := Int.to_size_t (if last >? 0 then last + 1 else - last) in
  multislice_in.range_count_fits start (rg_stop rr) step ->
  multislice_in.range_item_fits start step count ->
  0 < count ->
  multislice_in.ctor_loop st0 pre = Ok st ->
  ((start >=? 0) <> (last >=? 0) ->
     exists msg,
       multislice_in.ctor_loop st0 (pre ++ r :: post) = Throw (ValueError msg))
  /\ ((start >=? 0) = (last >=? 0) ->
        multislice_in.ctor_loop st0 (pre ++ [r])
        = Ok (multislice_in.mkCtor
                (Int.to_size_t (multislice_in.i st + 1))
                (Z.max n2 (Z.max n1 (multislice_in.max_nrows st)))
                (multislice_in.items st
                 ++ [multislice_in.mkItem start (start + count * step) step
                                          multislice_in.RANGE])))
  /\ (forall (min_nrows : Z) (wf : workframe),
        (min_nrows <= wf_nrows wf ->
           multislice_in.post_init_check min_nrows wf = Ok tt)
        /\ (wf_nrows wf < min_nrows ->
              exists msg,
                multislice_in.post_init_check min_nrows wf
                = Throw (ValueError msg))).
Proof.
  intros Hint Hrange start step count last n1 n2 _ _ Hcount Hpre.
  assert (Hle : (count <=? 0) = false) by (apply Z.leb_gt; lia).
  split; [|split].
  - intros Hsign. rewrite ctor_loop_app, Hpre, bind_Ok.
    cbn [multislice_in.ctor_loop]. unfold multislice_in.ctor_elem.
    rewrite Hint, Hrange. cbn zeta. fold start step. fold count. rewrite Hle.
    fold last.
    destruct (Bool.eqb (start >=? 0) (last >=? 0)) eqn:E.
    + apply Bool.eqb_prop in E. contradiction.
    + cbn [negb bind]. eexists. reflexivity.
  - intros Hsign. rewrite ctor_loop_app, Hpre, bind_Ok.
    cbn [multislice_in.ctor_loop]. unfold multislice_in.ctor_elem.
    rewrite Hint, Hrange. cbn zeta. fold start step. fold count. rewrite Hle.
    fold last. rewrite Hsign, Bool.eqb_reflx. cbn [negb bind].
    fold n1 n2. rewrite !gtb_max. reflexivity.
  - apply multislice_post_init_check_spec.
Qed.

Lemma multislice_range_sign_check_witness :
  (exists msg,
     multislice_in.ctor_loop (multislice_in.mkCtor 0 0 [])
       ([py_int 1] ++ py_range (-2) 3 1 :: []) = Throw (ValueError msg))
  /\ multislice_in.ctor_loop (multislice_in.mkCtor 0 0 [])
       ([py_int 1] ++ [py_range 0 100 1])
     = Ok (multislice_in.mkCtor 2 100
             [multislice_in.mkItem 1 0 0 multislice_in.INT;
              multislice_in.mkItem 0 100 1 multislice_in.RANGE]).
Proof.
  split.
  - refine (proj1 (multislice_range_sign_check
                     (multislice_in.mkCtor 0 0 [])
                     (multislice_in.mkCtor 1 2
                        [multislice_in.mkItem 1 0 0 multislice_in.INT])
                     [py_int 1] [] (py_range (-2) 3 1) (mkRange (-2) 3 1)
                     eq_refl eq_refl _ _ _ eq_refl) _).
    + unfold multislice_in.range_count_fits, Int.fits; cbn [Z.gtb Z.compare];
        repeat split; vm_compute; discriminate.
    + unfold multislice_in.range_item_fits, Int.fits;
        repeat split; vm_compute; discriminate.
    + vm_compute. reflexivity.
    + vm_compute. discriminate.
  - refine (proj1 (proj2 (multislice_range_sign_check
                     (multislice_in.mkCtor 0 0 [])
                     (multislice_in.mkCtor 1 2
                        [multislice_in.mkItem 1 0 0 multislice_in.INT])
                     [py_int 1] [] (py_range 0 100 1) (mkRange 0 100 1)
                     eq_refl eq_refl _ _ _ eq_refl)) _).
    + unfold multislice_in.range_count_fits, Int.fits; cbn [Z.gtb Z.compare];
        repeat split; vm_compute; discriminate.
    + unfold multislice_in.range_item_fits, Int.fits;
        repeat split; vm_compute; discriminate.
    + vm_compute. reflexivity.
    + vm_compute. reflexivity.
Defined.

(** C9, as stated, fails: the first and last elements of range(0, 100) are
    0 and 99, of the same sign, and resolution against a frame of 10 rows
    raises. *)
Lemma range_same_sign_raises_counterexample :
  let count := multislice_in.range_count 0 100 1 in
  let last := 0 + (count - 1) * 1 in
  (0 >=? 0) = (last >=? 0)
  /\ multislice_in.resolve [py_range 0 100 1] (mkWorkframe 10 [])
     = Throw (ValueError
                [Str "`i` selector is valid for a Frame with at least ";
                 Num 100; Str " row"; Str "s"]).
Proof. split; reflexivity. Qed.

(** ** The two loops of multislice_in::execute *)

Lemma for_loop_ext (fuel : nat) (c1 c2 : Z -> bool) (incr k : Z) :
  (forall x, c1 x = c2 x) ->
  multislice_in.for_loop fuel c1 incr k = multislice_in.for_loop fuel c2 incr k.
Proof.
  intros Hext. revert k. induction fuel as [|fuel IH]; intros k; [reflexivity|].
  cbn [multislice_in.for_loop]. rewrite Hext, IH. reflexivity.
Qed.

(** An ascending loop from [k] to [k + c * incr] (excluded) makes [c] turns,
    whatever fuel it is given beyond [c]. *)
Lemma for_loop_up (c : nat) (fuel : nat) (incr k : Z) :
  0 < incr ->
  (c <= fuel)%nat ->
  multislice_in.for_loop fuel (fun x => x <? k + Z.of_nat c * incr) incr k
  = map (fun j => k + Z.of_nat j * incr) (seq 0 c).
Proof.
  intros Hincr. revert fuel k. induction c as [|c IH]; intros fuel k Hfuel.
  - destruct fuel as [|fuel]; [reflexivity|].
    cbn [multislice_in.for_loop seq map].
    destruct (Z.ltb_spec k (k + Z.of_nat 0 * incr)); [lia|reflexivity].
  - destruct fuel as [|fuel]; [lia|].
    cbn [multislice_in.for_loop seq map].
    destruct (Z.ltb_spec k (k + Z.of_nat (S c) * incr)); [|nia].
    f_equal; [lia|].
    rewrite (for_loop_ext fuel _ (fun x => x <? (k + incr) + Z.of_nat c * incr))
      by (intros x; f_equal; lia).
    rewrite IH by lia.
    rewrite <- seq_shift, map_map. apply map_ext. intros j. lia.
Qed.

Lemma for_loop_down (c : nat) (fuel : nat) (incr k : Z) :
  incr < 0 ->
  (c <= fuel)%nat ->
  multislice_in.for_loop fuel (fun x => x >? k + Z.of_nat c * incr) incr k
  = map (fun j => k + Z.of_nat j * incr) (seq 0 c).
Proof.
  intros Hincr. revert fuel k. induction c as [|c IH]; intros fuel k Hfuel.
  - destruct fuel as [|fuel]; [reflexivity|].
    cbn [multislice_in.for_loop seq map].
    destruct (Z.gtb_spec k (k + Z.of_nat 0 * incr)); [lia|reflexivity].
  - destruct fuel as [|fuel]; [lia|].
    cbn [multislice_in.for_loop seq map].
    destruct (Z.gtb_spec k (k + Z.of_nat (S c) * incr)); [|nia].
    f_equal; [lia|].
    rewrite (for_loop_ext fuel _ (fun x => x >? (k + incr) + Z.of_nat c * incr))
      by (intros x; f_equal; lia).
    rewrite IH by lia.
    rewrite <- seq_shift, map_map. apply map_ext. intros j. lia.
Qed.

(** A loop whose test fails at the start makes no turn, whatever its fuel. *)
Lemma for_loop_none (fuel : nat) (continue : Z -> bool) (incr k : Z) :
  continue k = false -> multislice_in.for_loop fuel continue incr k = [].
Proof. intros H. destruct fuel; [reflexivity|]. cbn. now rewrite H. Qed.

(** A range item whose recorded stop lies on the same side of zero as its
    start: the first loop of [execute] counts the elements the constructor
    counted, and the second loop writes them, the negative positions moved
    by the row count. *)
Theorem range_item_stop_same_side (a b s N total : Z) :
  s <> 0 ->
  let count := multislice_in.range_count a b s in
  let stop := a + count * s in
  let a' := if a <? 0 then a + N else a in
  let stop' := if stop <? 0 then stop + N else stop in
  0 < count ->
  (a <? 0) = (stop <? 0) ->
  multislice_in.count_item N
    (multislice_in.mkItem a stop s multislice_in.RANGE) total
  = Ok (multislice_in.mkItem a' stop' s multislice_in.RANGE,
        Int.to_size_t (total + Int.to_size_t count))
  /\ multislice_in.fill_item
       (multislice_in.mkItem a' stop' s multislice_in.RANGE)
     = map (fun j => Int.to_int32 (a' + Z.of_nat j * s))
           (seq 0 (Z.to_nat count)).
Proof.
  intros Hs count stop a' stop' Hcount Hside.
  assert (Hdiff : stop' = a' + Z.of_nat (Z.to_nat count) * s).
  { subst a' stop'. rewrite <- Hside. rewrite Z2Nat.id by lia.
    destruct (a <? 0); subst stop; lia. }
  split.
  - unfold multislice_in.count_item.
    cbn [multislice_in.kind multislice_in.start multislice_in.stop
         multislice_in.step].
    fold a' stop'. do 3 f_equal.
    rewrite Hdiff, Z2Nat.id by lia.
    replace (a' + count * s - a') with (count * s) by lia.
    unfold Int.div. now rewrite Z.quot_mul.
  - unfold multislice_in.fill_item.
    cbn [multislice_in.kind multislice_in.start multislice_in.stop
         multislice_in.step].
    rewrite Hdiff.
    destruct (Z.gtb_spec s 0) as [Hpos|Hneg].
    + rewrite for_loop_up by nia. now rewrite map_map.
    + destruct (Z.ltb_spec s 0) as [Hlt|Hge]; [|lia].
      rewrite for_loop_down by nia. now rewrite map_map.
Qed.

Lemma range_item_stop_same_side_witness :
  multislice_in.fill_item
    (multislice_in.mkItem 9 5 (-2) multislice_in.RANGE)
  = map (fun j => Int.to_int32 (9 + Z.of_nat j * (-2))) (seq 0 2).
Proof.
  assert (Hs : -2 <> 0) by discriminate.
  destruct (range_item_stop_same_side (-1) (-4) (-2) 10 0 Hs) as [_ H].
  - reflexivity.
  - reflexivity.
  - exact H.
Defined.

(** C3, at the selector [[range(2, -1, -1)]] and a frame of 10 rows.  The
    constructor computes 3 elements (2, 1, 0) and records stop = -1; the
    row-count check passes; [execute] takes the stop for a negative index,
    moves it to 9, counts (9 - 2) / -1 = -7 elements, sizes the array with
    that number converted to [size_t], and writes no index. *)
Theorem multislice_descending_range_to_zero :
  multislice_in.range_count 2 (-1) (-1) = 3
  /\ multislice_in.make [py_range 2 (-1) (-1)]
     = Ok ([multislice_in.mkItem 2 (-1) (-1) multislice_in.RANGE], 3)
  /\ multislice_in.post_init_check 3 (mkWorkframe 10 []) = Ok tt
  /\ multislice_in.resolve [py_range 2 (-1) (-1)] (mkWorkframe 10 [])
     = Ok (mkWorkframe 10
             [RowIndex_array (mkArr32 18446744073709551609 [])])
  /\ (forall fuel,
        multislice_in.for_loop fuel (fun k => k >? 9) (-1) 2 = []).
Proof.
  repeat split; try reflexivity.
  intros fuel. now apply for_loop_none.
Qed.

(** The same slip can make the second loop write past the array: for
    [[range(5, -1, -100)]] and a frame of 6 rows the constructor counts one
    element and records stop = -95; [execute] moves the stop to -89, counts
    (-89 - 5) / -100 = 0 elements, and the loop writes the index 5 into an
    array of size 0. *)
Example multislice_range_written_past_size :
  multislice_in.make [py_range 5 (-1) (-100)]
  = Ok ([multislice_in.mkItem 5 (-95) (-100) multislice_in.RANGE], 6)
  /\ multislice_in.resolve [py_range 5 (-1) (-100)] (mkWorkframe 6 [])
     = Ok (mkWorkframe 6 [RowIndex_array (mkArr32 0 [5])]).
Proof. split; reflexivity. Qed.

(** ** frame_in *)

(** The positions listed for a mask are those of its cells equal to 1,
    counted from [from]. *)
Lemma true_positions_In (mask : list Z) (from p : Z) :
  In p (true_positions from mask)
  <-> from <= p < from + Z.of_nat (length mask)
      /\ nth (Z.to_nat (p - from)) mask 0 = 1.
Proof.
  revert from. induction mask as [|b rest IH]; intros from.
  - cbn. split; [tauto|]. intros [H _]. lia.
  - cbn [true_positions length].
    assert (Hstep : forall q, from < q ->
              nth (Z.to_nat (q - from)) (b :: rest) 0
              = nth (Z.to_nat (q - (from + 1))) rest 0).
    { intros q Hq.
      replace (Z.to_nat (q - from)) with (S (Z.to_nat (q - (from + 1)))) by lia.
      reflexivity. }
    destruct (Z.eqb_spec b 1) as [Hb|Hb].
    + cbn [In]. rewrite IH. split.
      * intros [Hp|[Hr Hn]].
        -- subst p. split; [lia|]. now replace (from - from) with 0 by lia.
        -- split; [lia|]. rewrite Hstep by lia. exact Hn.
      * intros [Hr Hn]. destruct (Z.eq_dec from p) as [Heq|Hne]; [now left|].
        right. split; [lia|]. rewrite <- Hstep by lia. exact Hn.
    + rewrite IH. split.
      * intros [Hr Hn]. split; [lia|]. rewrite Hstep by lia. exact Hn.
      * intros [Hr Hn]. destruct (Z.eq_dec from p) as [Heq|Hne].
        -- subst p. replace (from - from) with 0 in Hn by lia.
           cbn in Hn. contradiction.
        -- split; [lia|]. rewrite <- Hstep by lia. exact Hn.
Qed.

Lemma true_positions_sorted (mask : list Z) (from : Z) :
  StronglySorted Z.lt (true_positions from mask).
Proof.
  revert from. induction mask as [|b rest IH]; intros from.
  - constructor.
  - cbn [true_positions]. destruct (b =? 1); [|apply IH].
    constructor; [apply IH|].
    apply List.Forall_forall. intros q Hq.
    apply true_positions_In in Hq. lia.
Qed.

(** C4. For a frame of N rows and a frame selector of one boolean column:
    when the column's row count differs from N, resolution raises a value
    error; when it equals N, resolution applies the array row index whose
    cells are the positions of the true cells of the column, in ascending
    order, and whose size is their number. *)
Theorem frame_in_boolean (mask : list Z) (wf : workframe) :
  let src := mkDataTable [mkColumn ST_BOOL mask] in
  let n := Z.of_nat (length mask) in
  (n <> wf_nrows wf ->
     exists msg, frame_in.resolve src wf = Throw (ValueError msg))
  /\ (n = wf_nrows wf ->
        exists idx,
          frame_in.resolve src wf
          = Ok (apply_rowindex
                  (RowIndex_array (mkArr32 (Z.of_nat (length idx)) idx)) wf)
          /\ StronglySorted Z.lt idx
          /\ forall p, In p idx
                       <-> 0 <= p < n /\ nth (Z.to_nat p) mask 0 = 1).
Proof.
  intros src n.
  assert (Hmake : frame_in.make src = Ok src) by reflexivity.
  unfold frame_in.resolve. rewrite Hmake, bind_Ok.
  unfold frame_in.post_init_check, frame_in.execute.
  change (column0 src) with (mkColumn ST_BOOL mask).
  unfold RowIndex_of_column, col_nrows.
  cbn [col_stype SType_eqb col_values]. fold n.
  split.
  - intros Hne. destruct (Z.eqb_spec n (wf_nrows wf)); [contradiction|].
    cbn [negb bind]. eexists. reflexivity.
  - intros Heq. destruct (Z.eqb_spec n (wf_nrows wf)); [|contradiction].
    cbn [negb bind]. exists (true_positions 0 mask).
    split; [reflexivity|]. split; [apply true_positions_sorted|].
    intros p. rewrite true_positions_In.
    replace (p - 0) with p by lia. replace (0 + n) with n by lia.
    reflexivity.
Qed.

(** The running minimum and maximum of a list. *)
Lemma fold_min_lower (a : Z) (l : list Z) :
  fold_right Z.min a l <= a /\ Forall (fun v => fold_right Z.min a l <= v) l.
Proof.
  induction l as [|x l [IHa IHl]]; cbn [fold_right].
  - split; [lia|constructor].
  - split; [lia|]. constructor; [lia|].
    eapply List.Forall_impl; [|exact IHl]. cbn. intros; lia.
Qed.

Lemma fold_min_attained (a : Z) (l : list Z) :
  fold_right Z.min a l = a \/ In (fold_right Z.min a l) l.
Proof.
  induction l as [|x l IH]; cbn [fold_right]; [now left|].
  destruct (Z.min_spec x (fold_right Z.min a l)) as [[_ ->]|[_ ->]].
  - right. now left.
  - destruct IH as [IH|IH]; [now left|right; now right].
Qed.

Lemma fold_min_greatest (a b : Z) (l : list Z) :
  b <= a -> Forall (fun v => b <= v) l -> b <= fold_right Z.min a l.
Proof.
  intros Ha Hl. induction Hl; cbn [fold_right]; lia.
Qed.

Lemma fold_max_upper (a : Z) (l : list Z) :
  a <= fold_right Z.max a l /\ Forall (fun v => v <= fold_right Z.max a l) l.
Proof.
  induction l as [|x l [IHa IHl]]; cbn [fold_right].
  - split; [lia|constructor].
  - split; [lia|]. constructor; [lia|].
    eapply List.Forall_impl; [|exact IHl]. cbn. intros; lia.
Qed.

Lemma fold_max_attained (a : Z) (l : list Z) :
  fold_right Z.max a l = a \/ In (fold_right Z.max a l) l.
Proof.
  induction l as [|x l IH]; cbn [fold_right]; [now left|].
  destruct (Z.max_spec x (fold_right Z.max a l)) as [[_ ->]|[_ ->]].
  - destruct IH as [IH|IH]; [now left|right; now right].
  - right. now left.
Qed.

Lemma fold_max_least (a b : Z) (l : list Z) :
  a < b -> Forall (fun v => v < b) l -> fold_right Z.max a l < b.
Proof.
  intros Ha Hl. induction Hl; cbn [fold_right]; lia.
Qed.

(** C5. For a frame of N rows and a frame selector of one integer column:
    when the column holds a value below -1 or at least N, resolution raises
    a value error that names such a value; otherwise it applies the array
    row index whose size is the column's row count and whose cells are the
    column's values as they are, in order and with repetitions; a cell of
    -1, the marker of a missing row, is kept as it is. *)
Theorem frame_in_integer (st : SType) (vals : list Z) (wf : workframe) :
  ltype st = LT_INT ->
  0 <= wf_nrows wf < 2 ^ 63 ->
  let src := mkDataTable [mkColumn st vals] in
  let N := wf_nrows wf in
  (Exists (fun v => v < -1 \/ N <= v) vals ->
     exists msg v,
       frame_in.resolve src wf = Throw (ValueError msg)
       /\ In v vals /\ (v < -1 \/ N <= v) /\ In (Num v) msg)
  /\ (Forall (fun v => -1 <= v < N) vals ->
        frame_in.resolve src wf
        = Ok (apply_rowindex
                (RowIndex_array (mkArr32 (Z.of_nat (length vals)) vals)) wf)).
Proof.
  intros Hst HN src N.
  assert (Hmake : frame_in.make src = Ok src).
  { unfold frame_in.make. cbn [src dt_ncols dt_columns length column0 nth
                                col_stype].
    change (Z.of_nat 1 =? 1) with true. cbn [negb].
    rewrite Hst. cbn [LType_eqb]. rewrite orb_true_r. reflexivity. }
  assert (Hnb : SType_eqb st ST_BOOL = false).
  { destruct st; try reflexivity; discriminate Hst. }
  assert (Hri : RowIndex_of_column (mkColumn st vals)
                = RowIndex_array (mkArr32 (Z.of_nat (length vals)) vals)).
  { unfold RowIndex_of_column. cbn [col_stype col_values].
    destruct st; try reflexivity; discriminate Hst. }
  unfold frame_in.resolve. rewrite Hmake, bind_Ok.
  unfold frame_in.post_init_check, frame_in.execute.
  cbn [src column0 dt_columns nth col_stype]. rewrite Hnb.
  rewrite (to_int64_id _ HN). fold N.
  unfold min_int64, max_int64. cbn [col_values].
  pose proof (fold_min_lower Int.int64_max vals) as [_ Hminl].
  pose proof (fold_max_upper Int.int64_min vals) as [_ Hmaxu].
  assert (Hmaxc : Int.int64_max = 2 ^ 63 - 1) by reflexivity.
  assert (Hminc : Int.int64_min = - 2 ^ 63) by reflexivity.
  split.
  - intros Hex. apply List.Exists_exists in Hex as [v [Hv Hbad]].
    rewrite List.Forall_forall in Hminl, Hmaxu.
    specialize (Hminl v Hv). specialize (Hmaxu v Hv). cbn beta in Hminl, Hmaxu.
    destruct (Z.ltb_spec (fold_right Z.min Int.int64_max vals) (-1)) as [Hlt|Hge].
    + cbn [bind]. eexists. exists (fold_right Z.min Int.int64_max vals).
      split; [reflexivity|].
      destruct (fold_min_attained Int.int64_max vals) as [Heq|Hin]; [lia|].
      split; [exact Hin|]. split; [now left|]. cbn. auto.
    + assert (Hbig : N <= fold_right Z.max Int.int64_min vals) by lia.
      rewrite Z.geb_leb. destruct (Z.leb_spec N (fold_right Z.max Int.int64_min vals));
        [|lia].
      cbn [bind]. eexists. exists (fold_right Z.max Int.int64_min vals).
      split; [reflexivity|].
      destruct (fold_max_attained Int.int64_min vals) as [Heq|Hin]; [lia|].
      split; [exact Hin|]. split; [now right|]. cbn. auto.
  - intros Hall.
    assert (Hmin : -1 <= fold_right Z.min Int.int64_max vals).
    { apply fold_min_greatest; [lia|].
      eapply List.Forall_impl; [|exact Hall]. cbn. intros; lia. }
    assert (Hmax : fold_right Z.max Int.int64_min vals < N).
    { apply fold_max_least; [lia|].
      eapply List.Forall_impl; [|exact Hall]. cbn. intros; lia. }
    destruct (Z.ltb_spec (fold_right Z.min Int.int64_max vals) (-1)); [lia|].
    rewrite Z.geb_leb.
    destruct (Z.leb_spec N (fold_right Z.max Int.int64_min vals)); [lia|].
    cbn [bind]. rewrite Hri. reflexivity.
Qed.

Lemma frame_in_integer_witness :
  frame_in.resolve (mkDataTable [mkColumn ST_INT32 [2; -1; 0; 2]])
                   (mkWorkframe 3 [])
  = Ok (apply_rowindex
          (RowIndex_array (mkArr32 4 [2; -1; 0; 2])) (mkWorkframe 3 [])).
Proof.
  assert (HN : 0 <= wf_nrows (mkWorkframe 3 []) < 2 ^ 63) by (simpl; lia).
  destruct (frame_in_integer ST_INT32 [2; -1; 0; 2] (mkWorkframe 3 [])
              eq_refl HN) as [_ Hok].
  apply Hok. repeat constructor; simpl; lia.
Defined.

(** ** ColumnImpl::cast_replace *)

(** C10. For every column object and every target type, [cast_replace]
    stores a new column in the target: an object of the new type, of the
    receiver's row count, whose elements are the receiver's converted.  The
    receiver, which the target may have been a handle on, keeps its type,
    row count and elements, and so does every other object of the store. *)
Theorem cast_replace_receiver_unchanged
    (Stats : Type) (cast_value : SType -> SType -> option Z -> option Z)
    (this : positive) (new_type : SType) (thiscol : column_impl.Column)
    (h : gmap positive (column_impl.ColumnImpl Stats))
    (self : column_impl.ColumnImpl Stats) :
  h !! this = Some self ->
  exists target out h',
    column_impl.cast_replace Stats cast_value this new_type thiscol h
    = Some (target, h')
    /\ h' !! this = Some self
    /\ column_impl.impl_ target <> this
    /\ h' !! column_impl.impl_ target = Some out
    /\ column_impl.type_ Stats out = new_type
    /\ column_impl.nrows_ Stats out = column_impl.nrows_ Stats self
    /\ column_impl.elements Stats out
       = map (cast_value (column_impl.type_ Stats self) new_type)
             (column_impl.elements Stats self)
    /\ (forall l c, h !! l = Some c -> h' !! l = Some c).
Proof.
  intros Hself. unfold column_impl.cast_replace. rewrite Hself.
  set (l := fresh (dom h)).
  assert (Hfresh : h !! l = None).
  { apply not_elem_of_dom. apply is_fresh. }
  assert (Hne : l <> this) by congruence.
  do 3 eexists. split; [reflexivity|].
  cbn [column_impl.impl_].
  split; [rewrite lookup_insert_ne; [exact Hself|exact Hne]|].
  split; [exact Hne|].
  split; [apply lookup_insert_eq|].
  split; [reflexivity|]. split; [reflexivity|]. split; [reflexivity|].
  intros l' c Hl'. rewrite lookup_insert_ne; [exact Hl'|congruence].
Qed.

Lemma cast_replace_receiver_unchanged_witness :
  let self := column_impl.mkImpl unit ST_INT32 2 1 None [] [Some 7; None] in
  let h : gmap positive (column_impl.ColumnImpl unit) := {[ 1%positive := self ]} in
  exists target h',
    column_impl.cast_replace unit (fun _ _ v => v) 1%positive ST_INT64
      (column_impl.mkColumn 1%positive) h = Some (target, h')
    /\ h' !! 1%positive = Some self.
Proof.
  intros self h.
  destruct (cast_replace_receiver_unchanged unit (fun _ _ v => v) 1%positive
              ST_INT64 (column_impl.mkColumn 1%positive) h self)
    as [target [out [h' [Heq [Hkeep _]]]]].
  - apply lookup_singleton_eq.
  - exists target, h'. split; [exact Heq|exact Hkeep].
Defined.

(** * Further properties of the selector nodes *)

(** ** The factory returns the null node for unrecognized objects only *)

(** X3. When [_make] returns the null node, the object passed none of the
    tests of the factory: an object that passes one of them gives a node or
    an exception. *)
Theorem make_null_only_unrecognized
    (Frame_call : nparray -> result DataTable) (src : robj) :
  _make Frame_call src = Ok None ->
  is_slice src = false /\ is_PyBaseExpr src = false
  /\ is_frame src = false /\ is_int src = false
  /\ is_none src = false /\ is_ellipsis src = false
  /\ is_numpy_array src = false /\ is_range src = false
  /\ is_iterable src = false /\ is_bool src = false.
Proof.
  unfold _make, is_slice, is_PyBaseExpr, is_frame, is_int, is_numpy_array,
    is_range, is_iterable.
  destruct (to_oslice src) as [ss|].
  { destruct (oslice_m.is_trivial ss); [discriminate|].
    destruct (oslice_m.is_numeric ss); discriminate. }
  destruct (to_base_expr src); [discriminate|].
  destruct (to_frame src) as [f|].
  { destruct (frame_in.make f); discriminate. }
  destruct (to_int64_strict src); [discriminate|].
  destruct (is_none src); [discriminate|].
  destruct (is_ellipsis src); [discriminate|].
  cbn [orb].
  destruct (to_nparray src) as [a|].
  { destruct (_from_nparray Frame_call a); discriminate. }
  destruct (to_orange src); [discriminate|].
  destruct (to_oiter src) as [elems|].
  { destruct (multislice_in.make elems); discriminate. }
  destruct (is_bool src); [discriminate|].
  intros _. repeat split; reflexivity.
Qed.

Lemma make_null_only_unrecognized_witness :
  is_bool py_object = false.
Proof.
  apply (make_null_only_unrecognized Frame_call_sample py_object).
  reflexivity.
Defined.

(** ** Frames that are not accepted as selectors *)

(** X4. A table is accepted as a selector exactly when it has one column
    whose storage type is boolean or of the integer kind.  A table with
    another number of columns makes resolution raise a value error that
    names the number, whatever its columns and whatever the frame; a single
    column of another type makes it raise a type error that names the type,
    before any row count is compared. *)
Theorem frame_in_rejected (src : DataTable) (wf : workframe) :
  let st := col_stype (column0 src) in
  (dt_ncols src <> 1 ->
     exists msg, frame_in.resolve src wf = Throw (ValueError msg)
                 /\ In (Num (dt_ncols src)) msg)
  /\ (dt_ncols src = 1 -> st <> ST_BOOL -> ltype st <> LT_INT ->
        exists msg, frame_in.resolve src wf = Throw (TypeError msg)
                    /\ In (Sty st) msg)
  /\ (dt_ncols src = 1 -> st = ST_BOOL \/ ltype st = LT_INT ->
        frame_in.make src = Ok src
        /\ frame_in.resolve src wf
           = (_ <- frame_in.post_init_check src wf ;;
              frame_in.execute src wf)).
Proof.
  intros st. unfold frame_in.resolve, frame_in.make. fold st.
  split; [|split].
  - intros Hn. destruct (Z.eqb_spec (dt_ncols src) 1); [contradiction|].
    cbn [negb bind]. eexists. split; [reflexivity|]. cbn. auto.
  - intros Hn Hb Hi. rewrite Hn. cbn [Z.eqb Pos.eqb negb].
    replace (SType_eqb st ST_BOOL || LType_eqb (ltype st) LT_INT) with false.
    + cbn [negb bind]. eexists. split; [reflexivity|]. cbn. auto.
    + symmetry. apply orb_false_iff. split.
      * destruct st; try reflexivity. contradiction.
      * destruct (ltype st); try reflexivity. contradiction.
  - intros Hn Hst. rewrite Hn. cbn [Z.eqb Pos.eqb negb].
    replace (SType_eqb st ST_BOOL || LType_eqb (ltype st) LT_INT) with true.
    + split; reflexivity.
    + symmetry. apply orb_true_iff.
      destruct Hst as [->| ->]; [left|right]; reflexivity.
Qed.

Lemma frame_in_rejected_witness :
  (exists msg,
     frame_in.resolve
       (mkDataTable [mkColumn ST_INT32 [1]; mkColumn ST_FLOAT64 [2]])
       (mkWorkframe 4 [])
     = Throw (ValueError msg))
  /\ (exists msg,
        frame_in.resolve (mkDataTable [mkColumn ST_STR32 []])
                         (mkWorkframe 4 [])
        = Throw (TypeError msg)).
Proof.
  split.
  - destruct (proj1 (frame_in_rejected
        (mkDataTable [mkColumn ST_INT32 [1]; mkColumn ST_FLOAT64 [2]])
        (mkWorkframe 4 []))) as [msg [H _]]; [discriminate|].
    exists msg. exact H.
  - destruct (proj1 (proj2 (frame_in_rejected
        (mkDataTable [mkColumn ST_STR32 []]) (mkWorkframe 4 []))))
      as [msg [H _]]; [reflexivity|discriminate|discriminate|].
    exists msg. exact H.
Defined.

(** ** The shape test of the numpy array selector *)

(** X5. [_from_nparray] looks at the shape first.  An array with two axes,
    one of them of length 1, is treated as the array of one axis it is
    reshaped to.  An array whose shape, after that, has not exactly one axis
    (no axis, two axes longer than 1, three axes or more) raises a value
    error that carries the shape; the dtype is not looked at. *)
Theorem from_nparray_shape
    (Frame_call : nparray -> result DataTable) (a : nparray) :
  (forall d0 d1,
     np_shape a = [d0; d1] -> d0 = 1 \/ d1 = 1 ->
     _from_nparray Frame_call a
     = _from_nparray Frame_call
         (mkNparray [Int.to_size_t (d0 * d1)] (np_dtype a)))
  /\ (length (np_shape a) <> 1%nat ->
      (forall d0 d1, np_shape a = [d0; d1] -> d0 <> 1 /\ d1 <> 1) ->
      _from_nparray Frame_call a
      = Throw (ValueError
                 [Str "Only a single-dimensional numpy array is allowed as `i` selector, got array of shape ";
                  Shape (np_shape a)])).
Proof.
  split.
  - intros d0 d1 Hshape Hone.
    rewrite from_nparray_1d.
    unfold _from_nparray. rewrite Hshape.
    cbn [length Z.of_nat nth].
    change (Z.of_nat 2 =? 2) with true. cbn iota.
    replace ((d0 =? 1) || (d1 =? 1)) with true.
    2:{ symmetry. apply orb_true_iff.
        destruct Hone as [->| ->]; [left|right]; reflexivity. }
    cbn iota. unfold np_reshape. cbn [np_shape np_dtype length].
    change (negb (Z.of_nat 1 =? 1)) with false. cbn iota.
    rewrite dtype_flags_never_both_false. reflexivity.
  - intros Hlen Hnosq. unfold _from_nparray.
    destruct (np_shape a) as [|d0 [|d1 [|d2 rest]]] eqn:Hshape.
    + reflexivity.
    + cbn in Hlen. congruence.
    + destruct (Hnosq d0 d1 eq_refl) as [H0 H1].
      cbn [length Z.of_nat nth].
      change (Z.of_nat 2 =? 2) with true. cbn iota.
      destruct (Z.eqb_spec d0 1); [contradiction|].
      destruct (Z.eqb_spec d1 1); [contradiction|].
      reflexivity.
    + cbn [length].
      destruct (Z.eqb_spec (Z.of_nat (S (S (S (length rest))))) 2) as [E|E];
        [lia|].
      destruct (Z.eqb_spec (Z.of_nat (S (S (S (length rest))))) 1) as [E1|E1];
        [lia|].
      reflexivity.
Qed.

Lemma from_nparray_shape_witness :
  _from_nparray Frame_call_sample (mkNparray [2; 3] "int64")
  = Throw (ValueError
             [Str "Only a single-dimensional numpy array is allowed as `i` selector, got array of shape ";
              Shape [2; 3]]).
Proof.
  apply (proj2 (from_nparray_shape Frame_call_sample (mkNparray [2; 3] "int64"))).
  - cbn. discriminate.
  - intros d0 d1 H. injection H as <- <-. split; discriminate.
Defined.

(** ** The constructor of multislice_in, element by element *)

Lemma to_size_t_range (z : Z) : 0 <= Int.to_size_t z < 2 ^ 64.
Proof. unfold Int.to_size_t. apply Z.mod_pos_bound. lia. Qed.

Lemma to_size_t_succ (z : Z) :
  Int.to_size_t (Int.to_size_t z + 1) = Int.to_size_t (z + 1).
Proof. unfold Int.to_size_t. apply Zplus_mod_idemp_l. Qed.

(** What one accepted element does to the locals of the constructor does
    not depend on them: it appends the same items and raises [max_nrows] to
    the same bound. *)
Lemma ctor_elem_state_indep
    (st1 st2 st1' : multislice_in.ctor_state) (e : robj) :
  0 <= multislice_in.max_nrows st1 ->
  0 <= multislice_in.max_nrows st2 ->
  multislice_in.ctor_elem st1 e = Ok st1' ->
  exists st2' d n,
    multislice_in.ctor_elem st2 e = Ok st2'
    /\ 0 <= n
    /\ multislice_in.items st1' = (multislice_in.items st1 ++ d)%list
    /\ multislice_in.items st2' = (multislice_in.items st2 ++ d)%list
    /\ multislice_in.max_nrows st1'
       = Z.max (multislice_in.max_nrows st1) n
    /\ multislice_in.max_nrows st2'
       = Z.max (multislice_in.max_nrows st2) n.
Proof.
  intros H1 H2. unfold multislice_in.ctor_elem.
  destruct (to_int64_strict e) as [value|].
  { intros H. injection H as <-. do 3 eexists. split; [reflexivity|].
    cbn [multislice_in.items multislice_in.max_nrows].
    rewrite !gtb_max.
    split; [apply (proj1 (to_size_t_range
                            (if value >=? 0 then value + 1 else - value)))|].
    repeat split; try reflexivity.
    - destruct (value >=? 0); unfold Int.to_size_t; lia.
    - destruct (value >=? 0); unfold Int.to_size_t; lia. }
  destruct (to_orange e) as [rr|].
  { cbn zeta.
    destruct (multislice_in.range_count _ _ _ <=? 0).
    { intros H. injection H as <-. exists st2, [], 0.
      rewrite !app_nil_r. repeat split; try reflexivity; lia. }
    destruct (negb _); [discriminate|].
    set (last := rg_start rr + _ * rg_step rr).
    set (n1 := Int.to_size_t (if rg_start rr >? 0 then _ else _)).
    set (n2 := Int.to_size_t (if last >? 0 then _ else _)).
    intros H. injection H as <-. eexists. eexists. exists (Z.max n1 n2).
    split; [reflexivity|].
    cbn [multislice_in.items multislice_in.max_nrows].
    rewrite !gtb_max.
    pose proof (to_size_t_range (if rg_start rr >? 0
                                 then rg_start rr + 1 else - rg_start rr)).
    fold n1 in H.
    repeat split; try reflexivity; lia. }
  destruct (to_oslice e) as [ss|]; [|discriminate].
  destruct (negb _); [discriminate|]. cbn zeta.
  destruct (oslice_m.step ss =? 0).
  { destruct (_ || _); [discriminate|].
    intros H. injection H as <-. exists (multislice_in.mkCtor
      (Int.to_size_t (multislice_in.i st2 + 1)) (multislice_in.max_nrows st2)
      (multislice_in.items st2
       ++ [multislice_in.mkItem (oslice_m.start ss) (oslice_m.stop ss)
             (oslice_m.step ss) multislice_in.SLICE])%list).
    do 2 eexists. split; [reflexivity|].
    cbn [multislice_in.items multislice_in.max_nrows].
    instantiate (1 := 0).
    repeat split; try reflexivity; lia. }
  intros H. injection H as <-. do 3 eexists. split; [reflexivity|].
  cbn [multislice_in.items multislice_in.max_nrows].
  instantiate (1 := 0).
  repeat split; try reflexivity; lia.
Qed.

Lemma ctor_loop_state_indep (elems : list robj)
    (st1 st2 st1' : multislice_in.ctor_state) :
  0 <= multislice_in.max_nrows st1 ->
  0 <= multislice_in.max_nrows st2 ->
  multislice_in.ctor_loop st1 elems = Ok st1' ->
  exists st2' d n,
    multislice_in.ctor_loop st2 elems = Ok st2'
    /\ 0 <= n
    /\ multislice_in.items st1' = (multislice_in.items st1 ++ d)%list
    /\ multislice_in.items st2' = (multislice_in.items st2 ++ d)%list
    /\ multislice_in.max_nrows st1'
       = Z.max (multislice_in.max_nrows st1) n
    /\ multislice_in.max_nrows st2'
       = Z.max (multislice_in.max_nrows st2) n.
Proof.
  revert st1 st2. induction elems as [|e elems IH]; intros st1 st2 H1 H2.
  - cbn. intros H. injection H as <-. exists st2, [], 0.
    rewrite !app_nil_r. repeat split; try reflexivity; lia.
  - cbn [multislice_in.ctor_loop].
    destruct (multislice_in.ctor_elem st1 e) as [sa|] eqn:Ea; [|discriminate].
    rewrite bind_Ok. intros Hrest.
    destruct (ctor_elem_state_indep st1 st2 sa e H1 H2 Ea)
      as [sb [d1 [n1 [Eb [Hn1 [Ia [Ib [Ma Mb]]]]]]]].
    rewrite Eb, bind_Ok.
    destruct (IH sa sb) with (1 := ltac:(lia) : 0 <= multislice_in.max_nrows sa)
                             (2 := ltac:(lia) : 0 <= multislice_in.max_nrows sb)
                             (3 := Hrest)
      as [st2' [d2 [n2 [E2 [Hn2 [I1 [I2 [M1 M2]]]]]]]].
    exists st2', (d1 ++ d2)%list, (Z.max n1 n2).
    split; [exact E2|]. split; [lia|].
    rewrite I1, I2, Ia, Ib, M1, M2, Ma, Mb, <- !app_assoc.
    repeat split; lia.
Qed.

Lemma make_app_both (a b : list robj)
    (ia ib : list multislice_in.item) (ma mb : Z) :
  multislice_in.make a = Ok (ia, ma) ->
  multislice_in.make b = Ok (ib, mb) ->
  multislice_in.make (a ++ b) = Ok ((ia ++ ib)%list, Z.max ma mb).
Proof.
  unfold multislice_in.make. rewrite ctor_loop_app.
  set (st0 := multislice_in.mkCtor 0 0 []).
  assert (H0 : 0 <= multislice_in.max_nrows st0) by (cbn; lia).
  - intros Ha Hb.
    destruct (multislice_in.ctor_loop st0 a) as [sa|] eqn:Ea; [|discriminate].
    destruct (multislice_in.ctor_loop st0 b) as [sb|] eqn:Eb; [|discriminate].
    rewrite bind_Ok in Ha, Hb. injection Ha as <- <-. injection Hb as <- <-.
    destruct (ctor_loop_state_indep a st0 st0 sa H0 H0 Ea)
      as [_ [_ [na [_ [Hna [_ [_ [Ma _]]]]]]]].
    destruct (ctor_loop_state_indep b st0 sa sb H0 ltac:(lia) Eb)
      as [sb' [d [n [Eb' [Hn [Ib [Ib' [Mb Mb']]]]]]]].
    rewrite !bind_Ok, Eb', bind_Ok. cbn in Ib, Mb. subst d.
    rewrite Ib', Mb', Mb. do 2 f_equal. lia.
Qed.

Lemma make_app_split (a b : list robj)
    (its : list multislice_in.item) (m : Z) :
  multislice_in.make (a ++ b) = Ok (its, m) ->
  exists ia ma ib mb,
    multislice_in.make a = Ok (ia, ma)
    /\ multislice_in.make b = Ok (ib, mb)
    /\ its = (ia ++ ib)%list /\ m = Z.max ma mb.
Proof.
  unfold multislice_in.make. rewrite ctor_loop_app.
  set (st0 := multislice_in.mkCtor 0 0 []).
  assert (H0 : 0 <= multislice_in.max_nrows st0) by (cbn; lia).
  - intros H.
    destruct (multislice_in.ctor_loop st0 a) as [sa|] eqn:Ea; [|discriminate].
    rewrite !bind_Ok in H.
    destruct (multislice_in.ctor_loop sa b) as [sb|] eqn:Eb; [|discriminate].
    rewrite bind_Ok in H. injection H as <- <-.
    destruct (ctor_loop_state_indep a st0 st0 sa H0 H0 Ea)
      as [_ [_ [na [_ [Hna [_ [_ [Ma _]]]]]]]].
    destruct (ctor_loop_state_indep b sa st0 sb ltac:(lia) H0 Eb)
      as [sb' [d [n [Eb' [Hn [Ib [Ib' [Mb Mb']]]]]]]].
    rewrite Eb'. exists (multislice_in.items sa), (multislice_in.max_nrows sa),
              (multislice_in.items sb'), (multislice_in.max_nrows sb').
    rewrite !bind_Ok. split; [reflexivity|]. split; [reflexivity|].
    cbn in Ib', Mb'. rewrite Ib', Mb', Ib, Mb. split; [reflexivity|]. lia.
Qed.

(** X9. Building a multislice node from a concatenated list succeeds
    exactly when it succeeds for both parts; the items are then the items of
    the first part followed by those of the second, and the minimum row
    count is the larger of the two. *)
Theorem multislice_make_app (a b : list robj) :
  (forall ia ma ib mb,
     multislice_in.make a = Ok (ia, ma) ->
     multislice_in.make b = Ok (ib, mb) ->
     multislice_in.make (a ++ b) = Ok ((ia ++ ib)%list, Z.max ma mb))
  /\ (forall its m,
        multislice_in.make (a ++ b) = Ok (its, m) ->
        exists ia ma ib mb,
          multislice_in.make a = Ok (ia, ma)
          /\ multislice_in.make b = Ok (ib, mb)
          /\ its = (ia ++ ib)%list /\ m = Z.max ma mb).
Proof.
  split.
  - intros ia ma ib mb Ha Hb. now apply make_app_both.
  - intros its m H. now apply make_app_split.
Qed.

Lemma multislice_make_app_witness :
  multislice_in.make ([py_int 7; py_range 0 3 1] ++ [py_int (-9)])
  = Ok ([multislice_in.mkItem 7 0 0 multislice_in.INT;
         multislice_in.mkItem 0 3 1 multislice_in.RANGE;
         multislice_in.mkItem (-9) 0 0 multislice_in.INT], 9).
Proof.
  apply (proj1 (multislice_make_app [py_int 7; py_range 0 3 1] [py_int (-9)])
           [multislice_in.mkItem 7 0 0 multislice_in.INT;
            multislice_in.mkItem 0 3 1 multislice_in.RANGE] 8
           [multislice_in.mkItem (-9) 0 0 multislice_in.INT] 9);
    reflexivity.
Defined.

(** The counter [i] of the constructor counts the items recorded so far. *)
Lemma ctor_elem_counter (st st' : multislice_in.ctor_state) (e : robj) :
  multislice_in.ctor_elem st e = Ok st' ->
  multislice_in.i st
  = Int.to_size_t (Z.of_nat (length (multislice_in.items st))) ->
  multislice_in.i st'
  = Int.to_size_t (Z.of_nat (length (multislice_in.items st')))
  /\ (length (multislice_in.items st')
      <= S (length (multislice_in.items st)))%nat.
Proof.
  intros H Hi.
  assert (Hnext : forall it,
            Int.to_size_t (multislice_in.i st + 1)
            = Int.to_size_t
                (Z.of_nat (length (multislice_in.items st ++ [it])%list))).
  { intros it. rewrite Hi, to_size_t_succ, length_app. cbn [length].
    f_equal. lia. }
  assert (Hlen : forall it : multislice_in.item,
            (length (multislice_in.items st ++ [it])%list
             <= S (length (multislice_in.items st)))%nat).
  { intros it. rewrite length_app. cbn. lia. }
  unfold multislice_in.ctor_elem in H.
  destruct (to_int64_strict e).
  { injection H as <-. cbn [multislice_in.i multislice_in.items]. auto. }
  destruct (to_orange e).
  { cbn zeta in H. destruct (_ <=? 0).
    { injection H as <-. split; [exact Hi|lia]. }
    destruct (negb _); [discriminate|].
    injection H as <-. cbn [multislice_in.i multislice_in.items]. auto. }
  destruct (to_oslice e); [|discriminate].
  destruct (negb _); [discriminate|]. cbn zeta in H.
  destruct (_ =? 0).
  { destruct (_ || _); [discriminate|].
    injection H as <-. cbn [multislice_in.i multislice_in.items]. auto. }
  injection H as <-. cbn [multislice_in.i multislice_in.items]. auto.
Qed.

Lemma ctor_loop_counter (elems : list robj)
    (st st' : multislice_in.ctor_state) :
  multislice_in.ctor_loop st elems = Ok st' ->
  multislice_in.i st
  = Int.to_size_t (Z.of_nat (length (multislice_in.items st))) ->
  multislice_in.i st'
  = Int.to_size_t (Z.of_nat (length (multislice_in.items st')))
  /\ (length (multislice_in.items st')
      <= length (multislice_in.items st) + length elems)%nat.
Proof.
  revert st. induction elems as [|e elems IH]; intros st H Hi.
  - cbn in H. injection H as <-. split; [exact Hi|lia].
  - cbn [multislice_in.ctor_loop] in H.
    destruct (multislice_in.ctor_elem st e) as [sa|] eqn:Ea; [|discriminate].
    rewrite bind_Ok in H.
    destruct (ctor_elem_counter st sa e Ea Hi) as [Hia Hla].
    destruct (IH sa H Hia) as [Hi' Hl']. split; [exact Hi'|].
    cbn [length]. lia.
Qed.

(** X6. An element that is neither an integer, nor a range, nor a slice
    stops the construction of a multislice with a type error.  The index in
    the message is the number of items recorded before the element; it is
    at most the element's position in the list, and smaller when empty
    ranges came before it. *)
Theorem multislice_invalid_item
    (pre post : list robj) (elem : robj)
    (its : list multislice_in.item) (m : Z) :
  multislice_in.make pre = Ok (its, m) ->
  to_int64_strict elem = None ->
  to_orange elem = None ->
  to_oslice elem = None ->
  multislice_in.make (pre ++ elem :: post)
  = Throw (TypeError
             [Str "Invalid item "; Obj elem; Str " at index ";
              Num (Int.to_size_t (Z.of_nat (length its)));
              Str " in the `i` selector list"])
  /\ (length its <= length pre)%nat.
Proof.
  unfold multislice_in.make. intros Hpre Hint Hrange Hslice.
  destruct (multislice_in.ctor_loop (multislice_in.mkCtor 0 0 []) pre)
    as [st|] eqn:Est; [|discriminate].
  rewrite bind_Ok in Hpre. injection Hpre as <- <-.
  destruct (ctor_loop_counter pre _ st Est eq_refl) as [Hi Hl].
  split; [|exact Hl].
  rewrite ctor_loop_app, Est, bind_Ok. cbn [multislice_in.ctor_loop].
  unfold multislice_in.ctor_elem at 1. rewrite Hint, Hrange, Hslice, Hi.
  reflexivity.
Qed.

Lemma multislice_invalid_item_witness :
  multislice_in.make ([py_int 4; py_range 5 5 1] ++ py_object :: [py_int 0])
  = Throw (TypeError
             [Str "Invalid item "; Obj py_object; Str " at index ";
              Num 1; Str " in the `i` selector list"]).
Proof.
  apply (proj1 (multislice_invalid_item [py_int 4; py_range 5 5 1] [py_int 0]
                  py_object [multislice_in.mkItem 4 0 0 multislice_in.INT] 5
                  eq_refl eq_refl eq_refl eq_refl)).
Defined.

(** ** The first loop of multislice_in::execute *)

(** The first loop raises only through the assertion on an integer item. *)
Lemma count_loop_Ok (N : Z) (its : list multislice_in.item) (t : Z) :
  Forall (fun it => multislice_in.kind it = multislice_in.INT ->
                    - N <= multislice_in.start it < N) its ->
  exists r, multislice_in.count_loop N its t = Ok r.
Proof.
  intros Hits. revert t. induction Hits as [|it its Hit _ IH]; intros t.
  - eexists. reflexivity.
  - cbn [multislice_in.count_loop].
    assert (Hitem : exists r, multislice_in.count_item N it t = Ok r).
    { unfold multislice_in.count_item.
      destruct (multislice_in.kind it) eqn:Ek.
      - specialize (Hit eq_refl).
        replace ((_ >=? 0) && (_ <? N)) with true; [eexists; reflexivity|].
        symmetry. apply andb_true_iff.
        rewrite Z.geb_leb, Z.leb_le, Z.ltb_lt.
        destruct (Z.ltb_spec (multislice_in.start it) 0); lia.
      - cbn zeta. destruct (_ >? N); eexists; reflexivity.
      - eexists. reflexivity. }
    destruct Hitem as [r ->]. rewrite bind_Ok.
    destruct (IH (snd r)) as [r' ->]. eexists. reflexivity.
Qed.

(** Every integer item the constructor records lies within the minimum row
    count it computes. *)
Lemma ctor_elem_int_bound (st st' : multislice_in.ctor_state) (e : robj) :
  (forall v, to_int64_strict e = Some v -> Int.int64_min <= v <= Int.int64_max) ->
  multislice_in.ctor_elem st e = Ok st' ->
  Forall (fun it => multislice_in.kind it = multislice_in.INT ->
                    - multislice_in.max_nrows st <= multislice_in.start it
                    < multislice_in.max_nrows st) (multislice_in.items st) ->
  multislice_in.max_nrows st <= multislice_in.max_nrows st'
  /\ Forall (fun it => multislice_in.kind it = multislice_in.INT ->
                       - multislice_in.max_nrows st' <= multislice_in.start it
                       < multislice_in.max_nrows st') (multislice_in.items st').
Proof.
  intros Hrange H Hinv.
  assert (Hmono : forall m',
            multislice_in.max_nrows st <= m' ->
            Forall (fun it => multislice_in.kind it = multislice_in.INT ->
                              - m' <= multislice_in.start it < m')
                   (multislice_in.items st)).
  { intros m' Hm'. eapply List.Forall_impl; [|exact Hinv].
    cbn. intros it Hit Hk. specialize (Hit Hk). lia. }
  unfold multislice_in.ctor_elem in H.
  destruct (to_int64_strict e) as [value|].
  { specialize (Hrange value eq_refl).
    assert (Hc1 : Int.int64_min = - 2 ^ 63) by reflexivity.
    assert (Hc2 : Int.int64_max = 2 ^ 63 - 1) by reflexivity.
    injection H as <-. cbn [multislice_in.max_nrows multislice_in.items].
    rewrite gtb_max.
    assert (Hn : (if value >=? 0 then Int.to_size_t (value + 1)
                  else Int.to_size_t (- value))
                 = if value >=? 0 then value + 1 else - value).
    { destruct (value >=? 0) eqn:E; apply to_size_t_id;
        rewrite Z.geb_leb in E;
        [apply Z.leb_le in E|apply Z.leb_gt in E]; lia. }
    rewrite Hn. split; [lia|].
    apply Forall_app. split; [apply Hmono; lia|].
    constructor; [|constructor]. cbn. intros _.
    destruct (value >=? 0) eqn:E; rewrite Z.geb_leb in E;
      [apply Z.leb_le in E|apply Z.leb_gt in E]; lia. }
  destruct (to_orange e).
  { cbn zeta in H. destruct (_ <=? 0).
    { injection H as <-. split; [lia|exact Hinv]. }
    destruct (negb _); [discriminate|].
    injection H as <-. cbn [multislice_in.max_nrows multislice_in.items].
    rewrite !gtb_max. split; [lia|].
    apply Forall_app. split; [apply Hmono; lia|].
    constructor; [|constructor]. cbn. discriminate. }
  destruct (to_oslice e); [|discriminate].
  destruct (negb _); [discriminate|]. cbn zeta in H.
  destruct (_ =? 0).
  { destruct (_ || _); [discriminate|].
    injection H as <-. cbn [multislice_in.max_nrows multislice_in.items].
    split; [lia|]. apply Forall_app. split; [exact Hinv|].
    constructor; [|constructor]. cbn. discriminate. }
  injection H as <-. cbn [multislice_in.max_nrows multislice_in.items].
  split; [lia|]. apply Forall_app. split; [exact Hinv|].
  constructor; [|constructor]. cbn. discriminate.
Qed.

Lemma ctor_loop_int_bound (elems : list robj)
    (st st' : multislice_in.ctor_state) :
  Forall (fun e => forall v, to_int64_strict e = Some v ->
                             Int.int64_min <= v <= Int.int64_max) elems ->
  multislice_in.ctor_loop st elems = Ok st' ->
  Forall (fun it => multislice_in.kind it = multislice_in.INT ->
                    - multislice_in.max_nrows st <= multislice_in.start it
                    < multislice_in.max_nrows st) (multislice_in.items st) ->
  Forall (fun it => multislice_in.kind it = multislice_in.INT ->
                    - multislice_in.max_nrows st' <= multislice_in.start it
                    < multislice_in.max_nrows st') (multislice_in.items st').
Proof.
  intros Hel. revert st. induction Hel as [|e elems He _ IH]; intros st H Hinv.
  - cbn in H. injection H as <-. exact Hinv.
  - cbn [multislice_in.ctor_loop] in H.
    destruct (multislice_in.ctor_elem st e) as [sa|] eqn:Ea; [|discriminate].
    rewrite bind_Ok in H.
    destruct (ctor_elem_int_bound st sa e He Ea Hinv) as [_ Hsa].
    exact (IH sa H Hsa).
Qed.

(** X2. Once a multislice node has been built and the frame has at least
    [min_nrows] rows, the assertion of [execute] on the integer items holds:
    every recorded integer, moved by the row count when negative, lies in
    [0, nrows), and the first loop raises nothing. *)
Theorem multislice_assertion_holds
    (elems : list robj) (its : list multislice_in.item) (m : Z)
    (wf : workframe) :
  Forall (fun e => forall v, to_int64_strict e = Some v ->
                             Int.int64_min <= v <= Int.int64_max) elems ->
  0 <= wf_nrows wf < 2 ^ 63 ->
  multislice_in.make elems = Ok (its, m) ->
  multislice_in.post_init_check m wf = Ok tt ->
  Forall (fun it =>
            multislice_in.kind it = multislice_in.INT ->
            0 <= (if multislice_in.start it <? 0
                  then multislice_in.start it + wf_nrows wf
                  else multislice_in.start it) < wf_nrows wf) its
  /\ exists r,
       multislice_in.count_loop (Int.to_int64 (wf_nrows wf)) its 0 = Ok r.
Proof.
  intros Hel HN Hmake Hcheck.
  assert (Hm : m <= wf_nrows wf).
  { unfold multislice_in.post_init_check in Hcheck.
    destruct (Z.ltb_spec (wf_nrows wf) m); [discriminate|lia]. }
  assert (Hits : Forall (fun it => multislice_in.kind it = multislice_in.INT ->
                          - wf_nrows wf <= multislice_in.start it < wf_nrows wf)
                        its).
  { unfold multislice_in.make in Hmake.
    destruct (multislice_in.ctor_loop _ elems) as [st|] eqn:Est; [|discriminate].
    rewrite bind_Ok in Hmake. injection Hmake as <- <-.
    pose proof (ctor_loop_int_bound elems _ st Hel Est (List.Forall_nil _)) as Hb.
    eapply List.Forall_impl; [|exact Hb]. cbn. intros it Hit Hk.
    specialize (Hit Hk). lia. }
  split.
  - eapply List.Forall_impl; [|exact Hits]. cbn. intros it Hit Hk.
    specialize (Hit Hk).
    destruct (Z.ltb_spec (multislice_in.start it) 0); lia.
  - rewrite (to_int64_id _ HN). apply count_loop_Ok. exact Hits.
Qed.

Lemma multislice_assertion_holds_witness :
  exists r,
    multislice_in.count_loop (Int.to_int64 3)
      [multislice_in.mkItem (-1) 0 0 multislice_in.INT;
       multislice_in.mkItem 0 2 1 multislice_in.RANGE] 0 = Ok r.
Proof.
  destruct (multislice_assertion_holds [py_int (-1); py_range 0 2 1]
              [multislice_in.mkItem (-1) 0 0 multislice_in.INT;
               multislice_in.mkItem 0 2 1 multislice_in.RANGE] 2
              (mkWorkframe 3 [])) as [_ [r Hr]].
  - constructor; [|constructor; [|constructor]]; intros v H;
      try discriminate H; injection H as <-; vm_compute; split; discriminate.
  - simpl; lia.
  - reflexivity.
  - reflexivity.
  - exists r. exact Hr.
Defined.

(** ** A list of integers as a selector *)

Lemma wrap_is_mod (v N : Z) :
  - N <= v < N -> (if v <? 0 then v + N else v) = v mod N.
Proof.
  intros H. destruct (Z.ltb_spec v 0).
  - apply (Z.mod_unique_pos v N (-1) (v + N)); lia.
  - symmetry. apply Z.mod_small. lia.
Qed.

Lemma ctor_loop_ints (elems : list robj) (vs : list Z)
    (st : multislice_in.ctor_state) :
  Forall2 (fun e v => to_int64_strict e = Some v) elems vs ->
  Forall (fun v => Int.int64_min <= v <= Int.int64_max) vs ->
  exists st',
    multislice_in.ctor_loop st elems = Ok st'
    /\ multislice_in.items st'
       = (multislice_in.items st
          ++ map (fun v => multislice_in.mkItem v 0 0 multislice_in.INT) vs)%list
    /\ forall N, multislice_in.max_nrows st' <= N
                 <-> multislice_in.max_nrows st <= N
                     /\ Forall (fun v => - N <= v < N) vs.
Proof.
  intros Hel. revert st. induction Hel as [|e v elems vs He _ IH]; intros st Hvs.
  - exists st. split; [reflexivity|]. rewrite app_nil_r. split; [reflexivity|].
    intros N. split; [intros; split; [assumption|constructor]|tauto].
  - inversion Hvs as [|? ? Hv Hvs']; subst.
    cbn [multislice_in.ctor_loop]. unfold multislice_in.ctor_elem at 1.
    rewrite He. rewrite bind_Ok.
    match goal with
    | |- context [multislice_in.ctor_loop ?s elems] =>
        destruct (IH s Hvs') as [st' [Hloop [Hitems Hmax]]]
    end.
    exists st'. split; [exact Hloop|]. split.
    + rewrite Hitems. cbn [multislice_in.items map].
      rewrite <- app_assoc. reflexivity.
    + intros N. rewrite Hmax. cbn [multislice_in.max_nrows].
      rewrite gtb_max.
      assert (Hc1 : Int.int64_min = - 2 ^ 63) by reflexivity.
      assert (Hc2 : Int.int64_max = 2 ^ 63 - 1) by reflexivity.
      assert (Hn : (if v >=? 0 then Int.to_size_t (v + 1)
                    else Int.to_size_t (- v))
                   = if v >=? 0 then v + 1 else - v).
      { destruct (v >=? 0) eqn:E; apply to_size_t_id;
          rewrite Z.geb_leb in E;
          [apply Z.leb_le in E|apply Z.leb_gt in E]; lia. }
      rewrite Hn.
      assert (Hv' : (if v >=? 0 then v + 1 else - v) <= N <-> - N <= v < N).
      { destruct (v >=? 0) eqn:E; rewrite Z.geb_leb in E;
          [apply Z.leb_le in E|apply Z.leb_gt in E]; lia. }
      split.
      * intros [Hm Hall]. split; [lia|]. constructor; [|exact Hall].
        apply Hv'. lia.
      * intros [Hm Hall]. inversion Hall; subst.
        split; [|assumption]. apply Z.max_lub; [apply Hv'; assumption|exact Hm].
Qed.

Lemma count_loop_ints (N : Z) (vs : list Z) (t : Z) :
  Forall (fun v => - N <= v < N) vs ->
  0 <= t -> t + Z.of_nat (length vs) < 2 ^ 64 ->
  multislice_in.count_loop N
    (map (fun v => multislice_in.mkItem v 0 0 multislice_in.INT) vs) t
  = Ok (map (fun v => multislice_in.mkItem (v mod N) 0 0 multislice_in.INT) vs,
        t + Z.of_nat (length vs)).
Proof.
  intros Hvs. revert t. induction Hvs as [|v vs Hv _ IH]; intros t Ht Hlen.
  - cbn. do 2 f_equal. lia.
  - cbn [map multislice_in.count_loop length] in *.
    unfold multislice_in.count_item at 1.
    cbn [multislice_in.kind multislice_in.start multislice_in.stop
         multislice_in.step].
    rewrite (wrap_is_mod v N Hv).
    assert (Hmod : 0 <= v mod N < N) by (apply Z.mod_pos_bound; lia).
    replace ((v mod N >=? 0) && (v mod N <? N)) with true.
    2:{ symmetry. apply andb_true_iff.
        rewrite Z.geb_leb, Z.leb_le, Z.ltb_lt. lia. }
    cbn [xassert]. rewrite !bind_Ok. cbn [fst snd].
    rewrite to_size_t_id by lia.
    rewrite IH by lia. rewrite bind_Ok. cbn [fst snd]. do 2 f_equal. lia.
Qed.

Lemma fill_ints (N : Z) (vs : list Z) :
  flat_map multislice_in.fill_item
    (map (fun v => multislice_in.mkItem (v mod N) 0 0 multislice_in.INT) vs)
  = map (fun v => Int.to_int32 (v mod N)) vs.
Proof. induction vs as [|v vs IH]; [reflexivity|]. cbn. now rewrite IH. Qed.

(** X1. A list of integers as a selector, against a frame of N rows: when
    every integer lies in [-N, N), resolution applies the array row index of
    the integers taken modulo N, in the order of the list and with
    repetitions; when one lies outside, the row-count check raises a value
    error. *)
Theorem multislice_int_list
    (elems : list robj) (vs : list Z) (wf : workframe) :
  Forall2 (fun e v => to_int64_strict e = Some v) elems vs ->
  Forall (fun v => Int.int64_min <= v <= Int.int64_max) vs ->
  0 <= wf_nrows wf < 2 ^ 63 ->
  Z.of_nat (length vs) < 2 ^ 64 ->
  let N := wf_nrows wf in
  (Forall (fun v => - N <= v < N) vs ->
     multislice_in.resolve elems wf
     = Ok (apply_rowindex
             (RowIndex_array
                (mkArr32 (Z.of_nat (length vs))
                         (map (fun v => Int.to_int32 (v mod N)) vs))) wf))
  /\ (Exists (fun v => v < - N \/ N <= v) vs ->
      exists msg, multislice_in.resolve elems wf = Throw (ValueError msg)).
Proof.
  intros Hel Hvs HN Hlen N.
  destruct (ctor_loop_ints elems vs (multislice_in.mkCtor 0 0 []) Hel Hvs)
    as [st [Hloop [Hitems Hmax]]].
  cbn [multislice_in.items multislice_in.max_nrows app] in Hitems, Hmax.
  unfold multislice_in.resolve, multislice_in.make.
  rewrite Hloop, !bind_Ok. cbn [fst snd].
  unfold multislice_in.post_init_check. fold N. split.
  - intros Hall.
    assert (Hle : multislice_in.max_nrows st <= N).
    { apply Hmax. split; [lia|exact Hall]. }
    destruct (Z.ltb_spec N (multislice_in.max_nrows st)); [lia|].
    rewrite bind_Ok. unfold multislice_in.execute.
    rewrite (to_int64_id _ HN). fold N. rewrite Hitems.
    rewrite count_loop_ints by (try assumption; lia).
    rewrite bind_Ok, fill_ints. reflexivity.
  - intros Hex.
    destruct (Z.ltb_spec N (multislice_in.max_nrows st)) as [Hlt|Hge].
    + eexists. reflexivity.
    + exfalso. apply Hmax in Hge as [_ Hall].
      apply List.Exists_exists in Hex as [v [Hin Hbad]].
      rewrite List.Forall_forall in Hall. specialize (Hall v Hin). lia.
Qed.

Lemma multislice_int_list_witness :
  multislice_in.resolve [py_int 3; py_int (-1); py_int 3] (mkWorkframe 5 [])
  = Ok (apply_rowindex (RowIndex_array (mkArr32 3 [3; 4; 3]))
                       (mkWorkframe 5 [])).
Proof.
  assert (HN : 0 <= wf_nrows (mkWorkframe 5 []) < 2 ^ 63) by (simpl; lia).
  refine (proj1 (multislice_int_list [py_int 3; py_int (-1); py_int 3]
                   [3; -1; 3] (mkWorkframe 5 []) _ _ HN _) _).
  - repeat constructor.
  - repeat constructor; vm_compute; discriminate.
  - simpl; lia.
  - repeat constructor; simpl; lia.
Defined.

(** ** Slice items in the two loops of multislice_in::execute *)

(** The count [(a + s - 1) / s] of the source is the least number of steps
    of length [s] that cover [a]. *)
Lemma ceil_quot_bounds (a s : Z) :
  0 < a -> 0 < s ->
  0 < Int.div (a + s - 1) s
  /\ (Int.div (a + s - 1) s - 1) * s < a <= Int.div (a + s - 1) s * s.
Proof.
  intros Ha Hs. unfold Int.div. rewrite Z.quot_div_nonneg by lia.
  pose proof (Z.div_mod (a + s - 1) s ltac:(lia)) as Hdm.
  pose proof (Z.mod_pos_bound (a + s - 1) s Hs) as Hr.
  set (q := (a + s - 1) / s) in *. nia.
Qed.

Lemma for_loop_up_bound (c fuel : nat) (incr k stop : Z) :
  0 < incr ->
  (c <= fuel)%nat ->
  stop <= k + Z.of_nat c * incr ->
  (0 < Z.of_nat c -> k + (Z.of_nat c - 1) * incr < stop) ->
  multislice_in.for_loop fuel (fun x => x <? stop) incr k
  = map (fun j => k + Z.of_nat j * incr) (seq 0 c).
Proof.
  intros Hincr. revert fuel k. induction c as [|c IH]; intros fuel k Hfuel Hhi Hlo.
  - apply for_loop_none. apply Z.ltb_ge. lia.
  - destruct fuel as [|fuel]; [lia|].
    cbn [multislice_in.for_loop seq map].
    destruct (Z.ltb_spec k stop); [|nia].
    f_equal; [lia|].
    rewrite IH by nia.
    rewrite <- seq_shift, map_map. apply map_ext. intros j. lia.
Qed.

Lemma for_loop_down_bound (c fuel : nat) (incr k stop : Z) :
  incr < 0 ->
  (c <= fuel)%nat ->
  k + Z.of_nat c * incr <= stop ->
  (0 < Z.of_nat c -> stop < k + (Z.of_nat c - 1) * incr) ->
  multislice_in.for_loop fuel (fun x => x >? stop) incr k
  = map (fun j => k + Z.of_nat j * incr) (seq 0 c).
Proof.
  intros Hincr. revert fuel k. induction c as [|c IH]; intros fuel k Hfuel Hhi Hlo.
  - apply for_loop_none. rewrite Z.gtb_ltb. apply Z.ltb_ge. lia.
  - destruct fuel as [|fuel]; [lia|].
    cbn [multislice_in.for_loop seq map].
    destruct (Z.gtb_spec k stop); [|nia].
    f_equal; [lia|].
    rewrite IH by nia.
    rewrite <- seq_shift, map_map. apply map_ext. intros j. lia.
Qed.

(** X7. A slice item of nonzero step whose start, once a negative value has
    been moved by the row count and clipped at 0, does not exceed the row
    count N: the first loop of [execute] adds to [total_count] exactly the
    number of cells the second loop writes for the item; the cells are
    start, start + step, ... and lie between 0 and N, below N when the step
    is positive.  The start and the stop fit an [int64_t], and so does N
    plus the size of the step, which keeps every sum of the two loops
    within [int64_t]. *)
Theorem slice_item_written_is_counted
    (it : multislice_in.item) (N total : Z) :
  multislice_in.kind it = multislice_in.SLICE ->
  multislice_in.step it <> 0 ->
  0 <= N < 2 ^ 63 ->
  Int.fits (multislice_in.start it) ->
  Int.fits (multislice_in.stop it) ->
  Z.abs (multislice_in.step it) <= Int.int64_max - N ->
  let s0 := if multislice_in.start it <? 0
            then multislice_in.start it + N else multislice_in.start it in
  let start' := if s0 <? 0 then 0 else s0 in
  start' <= N ->
  exists it' icount,
    multislice_in.count_item N it total
    = Ok (it', Int.to_size_t (total + icount))
    /\ 0 <= icount <= N + 1
    /\ multislice_in.fill_item it'
       = map (fun j => Int.to_int32 (start' + Z.of_nat j * multislice_in.step it))
             (seq 0 (Z.to_nat icount))
    /\ (forall j, (j < Z.to_nat icount)%nat ->
          0 <= start' + Z.of_nat j * multislice_in.step it <= N)
    /\ (0 < multislice_in.step it ->
        forall j, (j < Z.to_nat icount)%nat ->
          start' + Z.of_nat j * multislice_in.step it < N).
Proof.
  intros Hk Hstep HN _ _ _ s0 start' Hstart.
  assert (H0 : 0 <= start') by (subst start'; destruct (Z.ltb_spec s0 0); lia).
  unfold multislice_in.count_item. rewrite Hk. fold s0. fold start'.
  destruct (Z.gtb_spec start' N) as [Hgt|_]; [lia|].
  set (e0 := if multislice_in.stop it <? 0
             then multislice_in.stop it + N else multislice_in.stop it).
  set (e1 := if e0 <? 0 then -1 else e0).
  set (stop' := if e1 >? N then N else e1).
  assert (Hstop : -1 <= stop' <= N).
  { subst stop' e1. destruct (Z.ltb_spec e0 0);
      [destruct (Z.gtb_spec (-1) N)|destruct (Z.gtb_spec e0 N)]; lia. }
  set (s := multislice_in.step it) in *.
  destruct (Z.gtb_spec s 0) as [Hpos|Hnpos].
  - (* ascending *)
    assert (Hneg : (s <? 0) = false) by (apply Z.ltb_ge; lia).
    rewrite Hneg. cbn [andb].
    destruct (Z.gtb_spec stop' start') as [Hlt|Hge].
    + destruct (ceil_quot_bounds (stop' - start') s ltac:(lia) Hpos)
        as [Hc0 [Hclo Hchi]].
      replace (stop' - start' + s - 1) with ((stop' - start') + s - 1) by lia.
      set (c := Int.div (stop' - start' + s - 1) s) in *.
      assert (Hcn : c <= stop' - start') by nia.
      do 2 eexists. split.
      { rewrite (to_size_t_id c) by lia. reflexivity. }
      split; [lia|].
      unfold multislice_in.fill_item.
      cbn [multislice_in.kind multislice_in.start multislice_in.stop
           multislice_in.step].
      destruct (Z.gtb_spec s 0); [|lia].
      rewrite (for_loop_up_bound (Z.to_nat c)) by (try lia; nia).
      rewrite map_map. split; [reflexivity|].
      split; intros; nia.
    + exists (multislice_in.mkItem start' stop' s multislice_in.SLICE), 0.
      split; [reflexivity|]. split; [lia|].
      unfold multislice_in.fill_item.
      cbn [multislice_in.kind multislice_in.start multislice_in.stop
           multislice_in.step Z.to_nat seq map].
      destruct (Z.gtb_spec s 0); [|lia].
      rewrite for_loop_none by (apply Z.ltb_ge; lia).
      split; [reflexivity|]. split; intros; lia.
  - (* descending *)
    assert (Hlt0 : s < 0) by lia.
    destruct (Z.ltb_spec s 0) as [_|]; [|lia]. cbn [andb].
    destruct (Z.ltb_spec stop' start') as [Hlt|Hge].
    + destruct (ceil_quot_bounds (start' - stop') (- s) ltac:(lia) ltac:(lia))
        as [Hc0 [Hclo Hchi]].
      replace (start' - stop' - s - 1) with ((start' - stop') + - s - 1) by lia.
      set (c := Int.div (start' - stop' + - s - 1) (- s)) in *.
      assert (Hcn : c <= start' - stop') by nia.
      do 2 eexists. split.
      { rewrite (to_size_t_id c) by lia. reflexivity. }
      split; [lia|].
      unfold multislice_in.fill_item.
      cbn [multislice_in.kind multislice_in.start multislice_in.stop
           multislice_in.step].
      destruct (Z.gtb_spec s 0); [lia|].
      destruct (Z.ltb_spec s 0); [|lia].
      rewrite (for_loop_down_bound (Z.to_nat c)) by (try lia; nia).
      rewrite map_map. split; [reflexivity|].
      split; intros; nia.
    + exists (multislice_in.mkItem start' stop' s multislice_in.SLICE), 0.
      split; [reflexivity|]. split; [lia|].
      unfold multislice_in.fill_item.
      cbn [multislice_in.kind multislice_in.start multislice_in.stop
           multislice_in.step Z.to_nat seq map].
      destruct (Z.gtb_spec s 0); [lia|].
      destruct (Z.ltb_spec s 0); [|lia].
      rewrite for_loop_none by (rewrite Z.gtb_ltb; apply Z.ltb_ge; lia).
      split; [reflexivity|]. split; intros; lia.
Qed.

Lemma slice_item_written_is_counted_witness :
  exists it' icount,
    multislice_in.count_item 10
      (multislice_in.mkItem (-4) 9223372036854775807 2 multislice_in.SLICE) 0
    = Ok (it', Int.to_size_t (0 + icount))
    /\ multislice_in.fill_item it'
       = map (fun j => Int.to_int32 (6 + Z.of_nat j * 2))
             (seq 0 (Z.to_nat icount)).
Proof.
  destruct (slice_item_written_is_counted
              (multislice_in.mkItem (-4) 9223372036854775807 2
                                    multislice_in.SLICE) 10 0)
    as [it' [icount [Hc [_ [Hf _]]]]].
  - reflexivity.
  - discriminate.
  - lia.
  - vm_compute. split; discriminate.
  - vm_compute. split; discriminate.
  - vm_compute. discriminate.
  - simpl. lia.
  - exists it', icount. split; [exact Hc|exact Hf].
Defined.

(** ** Concatenated selector lists *)

Lemma to_size_t_add_l (a b : Z) :
  Int.to_size_t (Int.to_size_t a + b) = Int.to_size_t (a + b).
Proof. unfold Int.to_size_t. apply Zplus_mod_idemp_l. Qed.

Lemma to_size_t_add_r (a b : Z) :
  Int.to_size_t (a + Int.to_size_t b) = Int.to_size_t (a + b).
Proof. unfold Int.to_size_t. apply Zplus_mod_idemp_r. Qed.

(** What the first loop does with an item does not depend on the count
    reached so far: the item is left the same, and the same number is
    added. *)
Lemma count_item_shift (N : Z) (it it' : multislice_in.item) (t t' : Z) :
  multislice_in.count_item N it t = Ok (it', t') ->
  exists c,
    0 <= c < 2 ^ 64
    /\ forall t2, 0 <= t2 < 2 ^ 64 ->
         multislice_in.count_item N it t2 = Ok (it', Int.to_size_t (t2 + c)).
Proof.
  unfold multislice_in.count_item. destruct (multislice_in.kind it).
  - destruct (xassert _); [|discriminate]. rewrite !bind_Ok.
    intros H. injection H as <- _. exists 1. split; [lia|]. reflexivity.
  - cbn zeta. destruct (_ >? N).
    + intros H. injection H as <- _. exists 0. split; [lia|].
      intros t2 Ht2. rewrite Z.add_0_r, to_size_t_id by lia. reflexivity.
    + intros H. injection H as <- _. eexists.
      split; [apply to_size_t_range|]. reflexivity.
  - intros H. injection H as <- _. eexists.
    split; [apply to_size_t_range|]. reflexivity.
Qed.

Lemma count_loop_shift (N : Z) (its its' : list multislice_in.item) (t t' : Z) :
  multislice_in.count_loop N its t = Ok (its', t') ->
  exists c,
    0 <= c < 2 ^ 64
    /\ forall t2, 0 <= t2 < 2 ^ 64 ->
         multislice_in.count_loop N its t2 = Ok (its', Int.to_size_t (t2 + c)).
Proof.
  revert its' t t'. induction its as [|it its IH]; intros its' t t'.
  - cbn. intros H. injection H as <- _. exists 0. split; [lia|].
    intros t2 Ht2. rewrite Z.add_0_r, to_size_t_id by lia. reflexivity.
  - cbn [multislice_in.count_loop].
    destruct (multislice_in.count_item N it t) as [[ia ta]|] eqn:Ea;
      [|discriminate].
    rewrite bind_Ok. cbn [fst snd].
    destruct (multislice_in.count_loop N its ta) as [[ib tb]|] eqn:Eb;
      [|discriminate].
    rewrite bind_Ok. cbn [fst snd]. intros H. injection H as <- _.
    destruct (count_item_shift N it ia t ta Ea) as [c1 [Hc1 H1]].
    destruct (IH ib ta tb Eb) as [c2 [Hc2 H2]].
    exists (Int.to_size_t (c1 + c2)). split; [apply to_size_t_range|].
    intros t2 Ht2. rewrite (H1 t2 Ht2), bind_Ok. cbn [fst snd].
    rewrite (H2 _ (to_size_t_range _)), bind_Ok. cbn [fst snd].
    rewrite to_size_t_add_l, to_size_t_add_r. do 3 f_equal. lia.
Qed.

Lemma count_loop_app (N : Z) (ia ib : list multislice_in.item) (t : Z) :
  multislice_in.count_loop N (ia ++ ib) t
  = (ra <- multislice_in.count_loop N ia t ;;
     rb <- multislice_in.count_loop N ib (snd ra) ;;
     Ok ((fst ra ++ fst rb)%list, snd rb)).
Proof.
  revert t. induction ia as [|it ia IH]; intros t.
  - cbn. destruct (multislice_in.count_loop N ib t) as [[x y]|]; reflexivity.
  - cbn [app multislice_in.count_loop].
    destruct (multislice_in.count_item N it t) as [[i1 t1]|]; [|reflexivity].
    rewrite !bind_Ok. cbn [fst snd]. rewrite IH.
    destruct (multislice_in.count_loop N ia t1) as [[i2 t2]|]; [|reflexivity].
    rewrite !bind_Ok. cbn [fst snd].
    destruct (multislice_in.count_loop N ib t2) as [[i3 t3]|]; reflexivity.
Qed.

Lemma apply_rowindex_inj (r1 r2 : RowIndex) (wf : workframe) :
  apply_rowindex r1 wf = apply_rowindex r2 wf -> r1 = r2.
Proof.
  unfold apply_rowindex. intros H. injection H as H.
  apply app_inj_tail in H. tauto.
Qed.

Lemma execute_inv (its : list multislice_in.item) (wf w : workframe) :
  multislice_in.execute its wf = Ok w ->
  exists its' total,
    multislice_in.count_loop (Int.to_int64 (wf_nrows wf)) its 0
    = Ok (its', total)
    /\ w = apply_rowindex
             (RowIndex_array
                (mkArr32 total (flat_map multislice_in.fill_item its'))) wf.
Proof.
  unfold multislice_in.execute.
  destruct (multislice_in.count_loop _ its 0) as [[its' total]|];
    [|discriminate].
  rewrite bind_Ok. intros H. injection H as <-. eauto.
Qed.

(** X10. Resolving a concatenated selector list succeeds exactly when
    resolving both parts does; the array of the result holds the cells of
    the first part followed by those of the second, and its size is the sum
    of the two sizes (as a [size_t]). *)
Theorem multislice_resolve_app (a b : list robj) (wf : workframe) :
  (forall A B,
     multislice_in.resolve a wf = Ok (apply_rowindex (RowIndex_array A) wf) ->
     multislice_in.resolve b wf = Ok (apply_rowindex (RowIndex_array B) wf) ->
     multislice_in.resolve (a ++ b) wf
     = Ok (apply_rowindex
             (RowIndex_array
                (mkArr32 (Int.to_size_t (arr_size A + arr_size B))
                         (arr_cells A ++ arr_cells B)%list)) wf))
  /\ (forall w,
        multislice_in.resolve (a ++ b) wf = Ok w ->
        exists A B,
          multislice_in.resolve a wf
          = Ok (apply_rowindex (RowIndex_array A) wf)
          /\ multislice_in.resolve b wf
             = Ok (apply_rowindex (RowIndex_array B) wf)).
Proof.
  assert (Hcheck : forall ma mb,
            multislice_in.post_init_check (Z.max ma mb) wf = Ok tt
            <-> multislice_in.post_init_check ma wf = Ok tt
                /\ multislice_in.post_init_check mb wf = Ok tt).
  { intros ma mb. unfold multislice_in.post_init_check.
    destruct (Z.ltb_spec (wf_nrows wf) (Z.max ma mb));
      destruct (Z.ltb_spec (wf_nrows wf) ma);
      destruct (Z.ltb_spec (wf_nrows wf) mb);
      split; try (intros [? ?]); try intros ?; try discriminate;
      try (split; reflexivity); try reflexivity; lia. }
  split.
  - intros A B Ha Hb. unfold multislice_in.resolve in *.
    destruct (multislice_in.make a) as [[ia ma]|] eqn:Ea; [|discriminate].
    destruct (multislice_in.make b) as [[ib mb]|] eqn:Eb; [|discriminate].
    rewrite (make_app_both a b ia ib ma mb Ea Eb).
    rewrite bind_Ok in Ha, Hb |- *. cbn [fst snd] in *.
    destruct (multislice_in.post_init_check ma wf) as [[]|] eqn:Ca;
      [|discriminate].
    destruct (multislice_in.post_init_check mb wf) as [[]|] eqn:Cb;
      [|discriminate].
    rewrite (proj2 (Hcheck ma mb) (conj Ca Cb)).
    rewrite bind_Ok in Ha, Hb |- *.
    apply execute_inv in Ha as [ia' [ta [Hca Hwa]]].
    apply execute_inv in Hb as [ib' [tb [Hcb Hwb]]].
    apply apply_rowindex_inj in Hwa. apply apply_rowindex_inj in Hwb.
    injection Hwa as ->. injection Hwb as ->.
    unfold multislice_in.execute. rewrite count_loop_app, Hca, bind_Ok.
    cbn [fst snd].
    destruct (count_loop_shift _ _ _ _ _ Hca) as [ca [Hra Hsa]].
    destruct (count_loop_shift _ _ _ _ _ Hcb) as [cb [Hrb Hsb]].
    assert (Hta : ta = Int.to_size_t ca).
    { specialize (Hsa 0 ltac:(lia)). rewrite Hca in Hsa.
      injection Hsa as ->. reflexivity. }
    assert (Htb : tb = Int.to_size_t cb).
    { specialize (Hsb 0 ltac:(lia)). rewrite Hcb in Hsb.
      injection Hsb as ->. reflexivity. }
    rewrite (Hsb ta) by (rewrite Hta; apply to_size_t_range).
    rewrite !bind_Ok. cbn [fst snd arr_size arr_cells].
    rewrite flat_map_app. rewrite Htb, to_size_t_add_r. reflexivity.
  - intros w H. unfold multislice_in.resolve in *.
    destruct (multislice_in.make (a ++ b)) as [[its m]|] eqn:Eab;
      [|discriminate].
    destruct (make_app_split a b its m Eab)
      as [ia [ma [ib [mb [Ea [Eb [-> ->]]]]]]].
    rewrite Ea, Eb. rewrite bind_Ok in H. rewrite !bind_Ok.
    cbn [fst snd] in *.
    destruct (multislice_in.post_init_check (Z.max ma mb) wf) as [[]|] eqn:C;
      [|discriminate].
    apply Hcheck in C as [Ca Cb]. rewrite Ca, Cb.
    rewrite bind_Ok in H. rewrite !bind_Ok.
    apply execute_inv in H as [its' [total [Hc _]]].
    rewrite count_loop_app in Hc.
    destruct (multislice_in.count_loop _ ia 0) as [[ia' ta]|] eqn:Hca;
      [|discriminate].
    rewrite bind_Ok in Hc. cbn [fst snd] in Hc.
    destruct (multislice_in.count_loop _ ib ta) as [[ib' tb]|] eqn:Hcb;
      [|discriminate].
    destruct (count_loop_shift _ _ _ _ _ Hcb) as [cb [Hrb Hsb]].
    unfold multislice_in.execute. rewrite Hca, (Hsb 0) by lia.
    rewrite !bind_Ok. do 2 eexists. split; reflexivity.
Qed.

Lemma multislice_resolve_app_witness :
  multislice_in.resolve ([py_int 5; py_range 0 2 1] ++ [py_int (-1)])
                        (mkWorkframe 6 [])
  = Ok (apply_rowindex (RowIndex_array (mkArr32 4 [5; 0; 1; 5]))
                       (mkWorkframe 6 [])).
Proof.
  apply (proj1 (multislice_resolve_app [py_int 5; py_range 0 2 1]
                  [py_int (-1)] (mkWorkframe 6 []))
           (mkArr32 3 [5; 0; 1]) (mkArr32 1 [5])); reflexivity.
Defined.

(** ** A range as the only item of a selector list *)

(** X8. A list holding one range of positive computed count, whose first
    and last elements have the same sign and whose end, one step past the
    last element, lies on the same side of zero as the start: against a
    frame with enough rows for both ends, resolution applies the array row
    index of the elements start, start + step, ..., last, each negative
    position moved by the row count.  The fields of the range and every
    intermediate result of the constructor fit an [int64_t]. *)
Theorem multislice_single_range (r : robj) (rr : orange) (wf : workframe) :
  to_int64_strict r = None ->
  to_orange r = Some rr ->
  let a := rg_start rr in
  let s := rg_step rr in
  let N := wf_nrows wf in
  let count := multislice_in.range_count a (rg_stop rr) s in
  let last := a + (count - 1) * s in
  let a' := if a <? 0 then a + N else a in
  s <> 0 ->
  0 < count ->
  multislice_in.range_count_fits a (rg_stop rr) s ->
  multislice_in.range_item_fits a s count ->
  Int.int64_min <= a <= Int.int64_max ->
  Int.int64_min <= last <= Int.int64_max ->
  (a >=? 0) = (last >=? 0) ->
  (a <? 0) = (a + count * s <? 0) ->
  0 <= N < 2 ^ 63 ->
  (if a >? 0 then a + 1 else - a) <= N ->
  (if last >? 0 then last + 1 else - last) <= N ->
  multislice_in.resolve [r] wf
  = Ok (apply_rowindex
          (RowIndex_array
             (mkArr32 count
                (map (fun j => Int.to_int32 (a' + Z.of_nat j * s))
                     (seq 0 (Z.to_nat count))))) wf).
Proof.
  intros Hint Hrange a s N count last a' Hs Hcount _ _ Ha Hlast Hsign Hside HN
    Hn1 Hn2.
  assert (Hc1 : Int.int64_min = - 2 ^ 63) by reflexivity.
  assert (Hc2 : Int.int64_max = 2 ^ 63 - 1) by reflexivity.
  assert (Hcnt : count < 2 ^ 64).
  { assert (- N <= a <= N) by (destruct (Z.gtb_spec a 0); lia).
    assert (- N <= last <= N) by (destruct (Z.gtb_spec last 0); lia).
    subst last. nia. }
  unfold multislice_in.resolve, multislice_in.make.
  cbn [multislice_in.ctor_loop]. unfold multislice_in.ctor_elem.
  rewrite Hint, Hrange. cbn zeta. fold a s. fold count.
  destruct (Z.leb_spec count 0); [lia|]. fold last.
  rewrite Hsign, Bool.eqb_reflx. cbn [negb].
  rewrite !bind_Ok.
  cbn [multislice_in.items multislice_in.max_nrows fst snd app].
  rewrite !gtb_max.
  rewrite (to_size_t_id (if a >? 0 then a + 1 else - a))
    by (destruct (Z.gtb_spec a 0); lia).
  rewrite (to_size_t_id (if last >? 0 then last + 1 else - last))
    by (destruct (Z.gtb_spec last 0); lia).
  unfold multislice_in.post_init_check. fold N.
  destruct (Z.ltb_spec N (Z.max (if last >? 0 then last + 1 else - last)
                                (Z.max (if a >? 0 then a + 1 else - a) 0)));
    [lia|].
  rewrite bind_Ok. unfold multislice_in.execute.
  rewrite (to_int64_id (wf_nrows wf) HN). fold N.
  cbn [multislice_in.count_loop].
  destruct (range_item_stop_same_side a (rg_stop rr) s N 0 Hs Hcount Hside)
    as [Hci Hfi].
  fold count in Hci, Hfi. rewrite Hci. rewrite !bind_Ok. cbn [fst snd].
  cbn [flat_map]. rewrite app_nil_r, Hfi. fold a'.
  rewrite (to_size_t_id count) by lia.
  rewrite Z.add_0_l, (to_size_t_id count) by lia. reflexivity.
Qed.

Lemma multislice_single_range_witness :
  multislice_in.resolve [py_range (-1) (-6) (-2)] (mkWorkframe 7 [])
  = Ok (apply_rowindex (RowIndex_array (mkArr32 3 [6; 4; 2]))
                       (mkWorkframe 7 [])).
Proof.
  refine (multislice_single_range (py_range (-1) (-6) (-2))
            (mkRange (-1) (-6) (-2)) (mkWorkframe 7 [])
            eq_refl eq_refl _ _ _ _ _ _ eq_refl eq_refl _ _ _).
  - discriminate.
  - reflexivity.
  - unfold multislice_in.range_count_fits, Int.fits; cbn [Z.gtb Z.compare];
      repeat split; vm_compute; discriminate.
  - unfold multislice_in.range_item_fits, Int.fits;
      repeat split; vm_compute; discriminate.
  - vm_compute. split; discriminate.
  - vm_compute. split; discriminate.
  - simpl. lia.
  - vm_compute. discriminate.
  - vm_compute. discriminate.
Defined.

(** ** Slices of step zero *)

Lemma map_const_repeat {A B : Type} (v : B) (l : list A) :
  map (fun _ => v) l = repeat v (length l).
Proof. induction l as [|x l IH]; [reflexivity|]. cbn. now rewrite IH. Qed.

(** X11. A slice item of step zero with a stop that is not negative: the
    second loop of [execute] writes the start (a negative one moved by the
    row count N and clipped at 0) as many times as the stop says, at most N
    times when the start does not exceed N; the first loop leaves
    [total_count] as it was. *)
Theorem zero_step_slice_item (it : multislice_in.item) (N total : Z) :
  multislice_in.kind it = multislice_in.SLICE ->
  multislice_in.step it = 0 ->
  0 <= multislice_in.stop it ->
  0 <= N ->
  0 <= total < 2 ^ 64 ->
  let s0 := if multislice_in.start it <? 0
            then multislice_in.start it + N else multislice_in.start it in
  let start' := if s0 <? 0 then 0 else s0 in
  exists it',
    multislice_in.count_item N it total = Ok (it', total)
    /\ multislice_in.fill_item it'
       = repeat (Int.to_int32 start')
                (Z.to_nat (if start' >? N then multislice_in.stop it
                           else Z.min (multislice_in.stop it) N)).
Proof.
  intros Hk Hstep Hstop HN Ht s0 start'.
  assert (Hfill : forall e, 0 <= e ->
            multislice_in.fill_item
              (multislice_in.mkItem start' e 0 multislice_in.SLICE)
            = repeat (Int.to_int32 start') (Z.to_nat e)).
  { intros e He. unfold multislice_in.fill_item.
    cbn [multislice_in.kind multislice_in.start multislice_in.stop
         multislice_in.step].
    change (0 >? 0) with false. change (0 <? 0) with false. cbn iota.
    rewrite (for_loop_up_bound (Z.to_nat e)) by lia.
    rewrite map_const_repeat, length_map, length_seq. reflexivity. }
  unfold multislice_in.count_item. rewrite Hk, Hstep. fold s0. fold start'.
  destruct (Z.gtb_spec start' N) as [Hgt|Hle].
  - eexists. split; [reflexivity|]. apply Hfill. exact Hstop.
  - destruct (Z.ltb_spec (multislice_in.stop it) 0) as [|_]; [lia|].
    destruct (Z.ltb_spec (multislice_in.stop it) 0) as [|_]; [lia|].
    change (0 >? 0) with false. change (0 <? 0) with false. cbn [andb].
    eexists. split.
    + f_equal. f_equal. change (Int.to_size_t 0) with 0.
      rewrite Z.add_0_r. apply to_size_t_id. exact Ht.
    + destruct (Z.gtb_spec (multislice_in.stop it) N).
      * rewrite Hfill by lia. f_equal. lia.
      * rewrite Hfill by lia. f_equal. lia.
Qed.

Lemma zero_step_slice_item_witness :
  exists it',
    multislice_in.count_item 10
      (multislice_in.mkItem 3 5 0 multislice_in.SLICE) 0 = Ok (it', 0)
    /\ multislice_in.fill_item it' = repeat (Int.to_int32 3) 5.
Proof.
  destruct (zero_step_slice_item
              (multislice_in.mkItem 3 5 0 multislice_in.SLICE) 10 0)
    as [it' [Hc Hf]].
  - reflexivity.
  - reflexivity.
  - simpl. lia.
  - lia.
  - lia.
  - exists it'. split; [exact Hc|exact Hf].
Defined.

(** ** A slice as the only item of a selector list *)

(** X12. A list holding one numeric slice of positive or missing step,
    against a frame of N rows.  A missing step reads as 1, a missing start
    as 0, a missing stop as the largest integer; negative bounds are moved
    by N, the start is clipped at 0 and the stop into [-1, N].  When the
    start so obtained does not exceed N, resolution applies the array row
    index of the positions start, start + step, ... below the stop.  The
    start and the stop fit an [int64_t], and so does N plus the step. *)
Theorem multislice_single_slice (r : robj) (ss : oslice) (wf : workframe) :
  to_int64_strict r = None ->
  to_orange r = None ->
  to_oslice r = Some ss ->
  oslice_m.is_numeric ss = true ->
  let N := wf_nrows wf in
  let step := if oslice_m.step ss =? oslice_m.NA then 1 else oslice_m.step ss in
  let start := if oslice_m.start ss =? oslice_m.NA then 0 else oslice_m.start ss in
  let stop := if oslice_m.stop ss =? oslice_m.NA
              then oslice_m.MAX else oslice_m.stop ss in
  let s0 := if start <? 0 then start + N else start in
  let start' := if s0 <? 0 then 0 else s0 in
  let e0 := if stop <? 0 then stop + N else stop in
  let e1 := if e0 <? 0 then -1 else e0 in
  let stop' := if e1 >? N then N else e1 in
  let icount := if stop' >? start'
                then (stop' - start' + step - 1) / step else 0 in
  0 < step ->
  0 <= N < 2 ^ 63 ->
  Int.fits start ->
  Int.fits stop ->
  step <= Int.int64_max - N ->
  start' <= N ->
  multislice_in.resolve [r] wf
  = Ok (apply_rowindex
          (RowIndex_array
             (mkArr32 icount
                (map (fun j => Int.to_int32 (start' + Z.of_nat j * step))
                     (seq 0 (Z.to_nat icount))))) wf).
Proof.
  intros Hint Hrange Hslice Hnum N step start stop s0 start' e0 e1 stop' icount
    Hstep HN _ _ _ Hstart.
  assert (Hstep0 : (oslice_m.step ss =? 0) = false).
  { apply Z.eqb_neq. intros E. subst step. rewrite E in Hstep.
    change (0 =? oslice_m.NA) with false in Hstep. cbn iota in Hstep. lia. }
  assert (Hpos : (step >? 0) = true) by (apply Z.gtb_lt; lia).
  assert (Hneg : (step <? 0) = false) by (apply Z.ltb_ge; lia).
  assert (H0 : 0 <= start') by (subst start'; destruct (Z.ltb_spec s0 0); lia).
  assert (Hstop : -1 <= stop' <= N).
  { subst stop' e1. destruct (Z.ltb_spec e0 0);
      [destruct (Z.gtb_spec (-1) N)|destruct (Z.gtb_spec e0 N)]; lia. }
  unfold multislice_in.resolve, multislice_in.make.
  cbn [multislice_in.ctor_loop]. unfold multislice_in.ctor_elem.
  rewrite Hint, Hrange, Hslice, Hnum. cbn [negb]. cbn zeta.
  rewrite Hstep0. fold step. rewrite Hpos. fold start stop.
  rewrite !bind_Ok.
  cbn [multislice_in.items multislice_in.max_nrows fst snd app].
  unfold multislice_in.post_init_check. fold N.
  destruct (Z.ltb_spec N 0); [lia|]. rewrite bind_Ok.
  unfold multislice_in.execute. rewrite (to_int64_id (wf_nrows wf) HN). fold N.
  cbn [multislice_in.count_loop]. unfold multislice_in.count_item.
  cbn [multislice_in.kind multislice_in.start multislice_in.stop
       multislice_in.step].
  fold s0. fold start'. fold e0. fold e1. fold stop'.
  destruct (Z.gtb_spec start' N) as [|_]; [lia|].
  rewrite Hpos, Hneg. cbn [andb].
  assert (Hic : (if stop' >? start'
                 then Int.div (stop' - start' + step - 1) step else 0)
                = icount).
  { subst icount. destruct (stop' >? start') eqn:E; [|reflexivity].
    apply Z.gtb_lt in E. unfold Int.div. apply Z.quot_div_nonneg; lia. }
  rewrite Hic.
  assert (Hbound : 0 <= icount <= N + 1
                   /\ stop' <= start' + icount * step
                   /\ (0 < icount -> start' + (icount - 1) * step < stop')).
  { rewrite <- Hic. destruct (Z.gtb_spec stop' start') as [Hlt|Hge].
    - destruct (ceil_quot_bounds (stop' - start') step ltac:(lia) Hstep)
        as [Hc0 [Hclo Hchi]].
      set (c := Int.div (stop' - start' + step - 1) step) in *.
      repeat split; nia.
    - repeat split; lia. }
  destruct Hbound as [Hr [Hhi Hlo]].
  rewrite !bind_Ok. cbn [fst snd flat_map]. rewrite app_nil_r.
  rewrite Z.add_0_l, !(to_size_t_id icount) by lia.
  unfold multislice_in.fill_item.
  cbn [multislice_in.kind multislice_in.start multislice_in.stop
       multislice_in.step].
  rewrite Hpos.
  rewrite (for_loop_up_bound (Z.to_nat icount)) by (try lia; nia).
  rewrite map_map. reflexivity.
Qed.

Lemma multislice_single_slice_witness :
  multislice_in.resolve [py_slice (SF_int (-3)) SF_none SF_none]
                        (mkWorkframe 5 [])
  = Ok (apply_rowindex (RowIndex_array (mkArr32 3 [2; 3; 4]))
                       (mkWorkframe 5 [])).
Proof.
  refine (multislice_single_slice (py_slice (SF_int (-3)) SF_none SF_none)
            (mkSlice (SF_int (-3)) SF_none SF_none) (mkWorkframe 5 [])
            eq_refl eq_refl eq_refl eq_refl _ _ _ _ _ _).
  - vm_compute. reflexivity.
  - simpl. lia.
  - vm_compute. split; discriminate.
  - vm_compute. split; discriminate.
  - vm_compute. discriminate.
  - vm_compute. discriminate.
Defined.
